(** * StompBrokerJS: the broker core of [stompServer.js]

    A shallow embedding of the [StompServer] constructor of
    [src/stompServer.js] and the properties of its destination matcher,
    subscription registry, middleware pipeline, SEND handler, teardown and
    request dispatch.

    The server object and the sockets are mutable JavaScript objects.  The
    server is a record threaded through a state-and-exception monad; a
    socket is a handle (object identity plus the session id assigned once on
    connection) and its mutable properties live in per-property maps of the
    server state indexed by the handle, so that [delete socket.heartbeatClock]
    is a map deletion and [socket.heartbeatClock !== undefined] a lookup. *)

From Stdlib Require Import ZArith String Ascii List Lia.
From Stdlib.Strings Require Byte.
From stdpp Require Import base option list gmap strings pretty.
From Equations Require Import Equations.
From Equations.Prop Require Import Logic.

Local Open Scope string_scope.
Local Open Scope list_scope.
Local Open Scope nat_scope.

(* ===================================================================== *)
(** * Part I: the model                                                   *)
(* ===================================================================== *)

(** ** JavaScript data *)

(** A header value: strings from the wire, and the number stored by
    [frame.headers['content-length'] = frame.body.length]. *)
Inductive HVal :=
| HStr (s : string)
| HNum (n : Z).

(** A frame body: [undefined], a string, a [Buffer], or a structured value
    (what [JSON.parse] returns), kept as an opaque handle. *)
Inductive Body :=
| BUndefined
| BString (s : string)
| BBuffer (bytes : list Byte.byte)
| BStruct (handle : nat).

(** [MsgFrame]: the typedef declares [headers] as an object, so it is a map
    here; [command] is absent on the frames built by [send]. *)
Record Frame := {
  frame_command : option string;
  frame_headers : gmap string HVal;
  frame_body : Body
}.

(** A socket handle: the identity of the [ws] object and the [sessionId]
    written once by the ['connection'] listener (lines 63-66). *)
Record Socket := {
  sock_ref : nat;
  sock_sessionId : string
}.

(** An entry of [this.subscribes] (lines 230-236 and 312-317); [socket] is
    [undefined] for the subscriptions of the host. *)
Record Subscription := {
  sub_id : string;
  sub_sessionId : string;
  sub_topic : string;
  sub_tokens : list string;
  sub_socket : option Socket
}.

(** The [args] of [onSend]. *)
Record SendArgs := {
  args_dest : string;
  args_frame : Frame
}.

(** The [args] of [onSubscribe]. *)
Record SubscribeArgs := {
  sargs_dest : string;
  sargs_id : string
}.

(** Values returned by handlers and interceptors. *)
Inductive Value :=
| VUndefined
| VBool (b : bool)
| VString (s : string).

(** What a [throw] carries. *)
Inductive Exn :=
| TypeError (msg : string)
| SyntaxError (msg : string)
| ThrownString (msg : string).

Global Instance byte_eq_dec : EqDecision Byte.byte := Byte.byte_eq_dec.
Global Instance HVal_eq_dec : EqDecision HVal.
Proof. solve_decision. Defined.
Global Instance Body_eq_dec : EqDecision Body.
Proof. solve_decision. Defined.
Global Instance Socket_eq_dec : EqDecision Socket.
Proof. solve_decision. Defined.
Global Instance Value_eq_dec : EqDecision Value.
Proof. solve_decision. Defined.

(** ** Strings *)

(** A JavaScript string is kept as the UTF-8 encoding of its text, which is
    what a string literal of this file is.  [s.length] counts UTF-16 code
    units: one for a character of the Basic Multilingual Plane (its first
    byte is below 0x80, or from 0xC0 to 0xEF), two for a character beyond it
    (first byte from 0xF0), and the continuation bytes (0x80 to 0xBF) count
    for nothing. *)
Definition code_units (c : ascii) : nat :=
  let n := nat_of_ascii c in
  if (n <? 128)%nat then 1
  else if (n <? 192)%nat then 0
  else if (n <? 240)%nat then 1
  else 2.

Fixpoint js_length (s : string) : nat :=
  match s with
  | EmptyString => 0
  | String c s' => code_units c + js_length s'
  end.

(** [String.prototype.toLowerCase], on the ASCII letters. *)
Definition lower_ascii (c : ascii) : ascii :=
  let n := nat_of_ascii c in
  if (65 <=? n)%nat && (n <=? 90)%nat then ascii_of_nat (n + 32) else c.

Fixpoint toLowerCase (s : string) : string :=
  match s with
  | EmptyString => EmptyString
  | String c s' => String (lower_ascii c) (toLowerCase s')
  end.

(** ** Destination matcher *)

(** The body of the [for (var t in tokens)] loop of [_checkSubMatchDest]
    (lines 495-503): [t] is the running index into [sub.tokens], [tokens]
    what is left of the destination's tokens.  Running off the end of
    [tokens] leaves [match] at its initial [true]. *)
Fixpoint checkLoop (subTokens : list string) (t : nat) (tokens : list string) : bool :=
  match tokens with
  | [] => true
  | token :: rest =>
      match subTokens !! t with
      | None => false
      | Some st =>
          if negb (st =? token)%string && negb (st =? "*")%string
             && negb (st =? "**")%string then false
          else if (st =? "**")%string then true
          else checkLoop subTokens (S t) rest
      end
  end.

(** ** The server state *)

(** Function objects (middleware handlers) and interval timers are known by
    their identity. *)
Definition FnRef := nat.
Definition TimerId := nat.

(** What [heartbeatOn] hands to [setInterval]: the socket, the period, and
    which of the two callbacks (lines 444-449 or 455-464) runs. *)
Record Timer := {
  timer_socket : Socket;
  timer_interval : Z;
  timer_serverSide : bool
}.

(** What is passed to the listeners of [this.emit]. *)
Inductive Payload :=
| PSubscription (sub : Subscription)
| PSend (dest : string) (headers : gmap string HVal) (body : Body)
| PSession (sessionId : string)
| PMessage (body : Body) (headers : gmap string HVal).

(** Effects that leave the server: events for the host, frames handed to
    [stompUtils.sendFrame], lines for [conf.debug]. *)
Inductive Event :=
| EvEmit (name : string) (payload : Payload)
| EvSendFrame (sock : Socket) (frame : Frame)
| EvDebug (line : list string).

(** What a socket's ['message'] event hands to [parseRequest]: the text of
    a text message, or the [Buffer] of a binary one. *)
Inductive Data :=
| DString (s : string)
| DBuffer (bytes : list Byte.byte).

Global Instance Data_eq_dec : EqDecision Data.
Proof. solve_decision. Defined.

(** Ghost log of the calls made into code that is not the server's own:
    middleware interceptors, terminal handlers, the frame parser and the
    command functions of the frame handler. *)
Inductive Call :=
| CallInterceptor (f : FnRef)
| CallFinal (command : string)
| CallParseFrame (data : Data)
| CallCommand (command : string).

Record StompServer := {
  subscribes : list Subscription;
  middleware : gmap string (list FnRef);
  heartbeatClock : gmap nat TimerId;
  heartbeatTime : gmap nat Z;
  intervals : gmap TimerId Timer;
  out : list Event;
  calls : list Call
}.

(** [new StompServer(config)] (lines 46-47): no subscriptions, no middleware. *)
Definition newStompServer : StompServer :=
  {| subscribes := []; middleware := ∅; heartbeatClock := ∅;
     heartbeatTime := ∅; intervals := ∅; out := []; calls := [] |}.

Definition set_subscribes (f : list Subscription → list Subscription) (srv : StompServer) :=
  {| subscribes := f (subscribes srv); middleware := middleware srv;
     heartbeatClock := heartbeatClock srv; heartbeatTime := heartbeatTime srv;
     intervals := intervals srv; out := out srv; calls := calls srv |}.

Definition set_middleware (f : gmap string (list FnRef) → gmap string (list FnRef))
    (srv : StompServer) :=
  {| subscribes := subscribes srv; middleware := f (middleware srv);
     heartbeatClock := heartbeatClock srv; heartbeatTime := heartbeatTime srv;
     intervals := intervals srv; out := out srv; calls := calls srv |}.

Definition set_heartbeatClock (f : gmap nat TimerId → gmap nat TimerId) (srv : StompServer) :=
  {| subscribes := subscribes srv; middleware := middleware srv;
     heartbeatClock := f (heartbeatClock srv); heartbeatTime := heartbeatTime srv;
     intervals := intervals srv; out := out srv; calls := calls srv |}.

Definition set_heartbeatTime (f : gmap nat Z → gmap nat Z) (srv : StompServer) :=
  {| subscribes := subscribes srv; middleware := middleware srv;
     heartbeatClock := heartbeatClock srv; heartbeatTime := f (heartbeatTime srv);
     intervals := intervals srv; out := out srv; calls := calls srv |}.

Definition set_intervals (f : gmap TimerId Timer → gmap TimerId Timer) (srv : StompServer) :=
  {| subscribes := subscribes srv; middleware := middleware srv;
     heartbeatClock := heartbeatClock srv; heartbeatTime := heartbeatTime srv;
     intervals := f (intervals srv); out := out srv; calls := calls srv |}.

Definition set_out (f : list Event → list Event) (srv : StompServer) :=
  {| subscribes := subscribes srv; middleware := middleware srv;
     heartbeatClock := heartbeatClock srv; heartbeatTime := heartbeatTime srv;
     intervals := intervals srv; out := f (out srv); calls := calls srv |}.

Definition set_calls (f : list Call → list Call) (srv : StompServer) :=
  {| subscribes := subscribes srv; middleware := middleware srv;
     heartbeatClock := heartbeatClock srv; heartbeatTime := heartbeatTime srv;
     intervals := intervals srv; out := out srv; calls := f (calls srv) |}.

(** ** The monad of server methods *)

(** How a call ends: a value, a JavaScript exception, or the bound on the
    nesting of [callNext] was too small (an artefact of the model, see
    [callNext]). *)
Inductive Completion (A : Type) :=
| Normal (a : A)
| Throw (e : Exn)
| OutOfFuel.
Arguments Normal {A} a.
Arguments Throw {A} e.
Arguments OutOfFuel {A}.

(** State changes made before a [throw] stay made. *)
Definition M (A : Type) : Type := StompServer → Completion A * StompServer.

Definition ret {A} (a : A) : M A := fun srv => (Normal a, srv).

Definition bind {A B} (m : M A) (k : A → M B) : M B :=
  fun srv =>
    match m srv with
    | (Normal a, srv') => k a srv'
    | (Throw e, srv') => (Throw e, srv')
    | (OutOfFuel, srv') => (OutOfFuel, srv')
    end.

Definition throw {A} (e : Exn) : M A := fun srv => (Throw e, srv).
Definition this : M StompServer := fun srv => (Normal srv, srv).
Definition update (f : StompServer → StompServer) : M unit := fun srv => (Normal tt, f srv).

Declare Scope js_scope.
Delimit Scope js_scope with js.
Notation "'let*' x ':=' m 'in' k" := (bind m (fun x => k))
  (at level 10, x pattern, m at level 200, k at level 200, only parsing) : js_scope.
Local Open Scope js_scope.

(** [this.emit(name, payload)], [stompUtils.sendFrame(sock, frame)],
    [this.conf.debug(...)]. *)
Definition emit (name : string) (payload : Payload) : M unit :=
  update (set_out (λ o, o ++ [EvEmit name payload])).
Definition sendFrame (sock : Socket) (frame : Frame) : M unit :=
  update (set_out (λ o, o ++ [EvSendFrame sock frame])).
Definition debug (line : list string) : M unit :=
  update (set_out (λ o, o ++ [EvDebug line])).
Definition called (c : Call) : M unit :=
  update (set_calls (λ l, l ++ [c])).

(** ** Collaborators outside [stompServer.js] *)

(** [require('./lib/stomp-utils')]: the pure helpers the server calls.
    ([sendFrame] writes to a socket and is the effect [sendFrame] above.) *)
Class StompUtils := {
  genId : string → string;
  tokenizeDestination : string → list string;
  parseFrame : Data → Frame
}.

(** The built-in [JSON] object, on frame bodies; [JSON.parse] returns a
    value or throws. *)
Class JSON := {
  JSON_stringify : Body → string;
  JSON_parse : Body → Exn + Body
}.

(** [new stomp.FrameHandler(this)] read as [this.frameHandler[command]]
    (line 542): what the lookup finds under the name [command], among the
    members of the object and those it inherits, when that is truthy; it is
    called as [cmdFunc(socket, frame)] (line 545). *)
Class FrameHandler := frameHandler : string → option (Socket → Frame → M Value).

(** The functions of [Object.prototype] that begin by converting their
    receiver to an object (after reading an argument as a property key, for
    some). *)
Definition object_prototype_methods : list string :=
  ["toLocaleString"; "valueOf"; "hasOwnProperty"; "isPrototypeOf"; "propertyIsEnumerable";
   "__defineGetter__"; "__defineSetter__"; "__lookupGetter__"; "__lookupSetter__"].

(** What an object inherits from [Object.prototype] under [name], called as
    line 545 calls it, [cmdFunc(socket, frame)], that is without a receiver:
    [toString] answers for [undefined]; the functions that convert their
    receiver to an object throw on [undefined]; [__proto__] reads as the
    prototype of the object, which is truthy and not a function.  The
    messages are those of V8. *)
Definition object_prototype_member (name : string)
    : option (Socket → Frame → M Value) :=
  if decide (name = "toString")
  then Some (λ _ _, ret (VString "[object Undefined]"))
  else if bool_decide (name ∈ object_prototype_methods)
  then Some (λ _ _, throw (TypeError "Cannot convert undefined or null to object"))
  else if decide (name = "__proto__")
  then Some (λ _ _, throw (TypeError "cmdFunc is not a function"))
  else None.

(** What an object made by [new] inherits under [name]: [constructor] from
    the prototype of its constructor function, the rest from
    [Object.prototype]. *)
Definition inherited_member (constructor : Socket → Frame → M Value) (name : string)
    : option (Socket → Frame → M Value) :=
  if decide (name = "constructor") then Some constructor
  else object_prototype_member name.

(** The frame handler as an ordinary object made by [new]: [commands] are
    the members that the missing [lib/stomp] gives it, the command
    functions; [constructor] is the function [FrameHandler] of [lib/stomp]
    called without [new].  A member of the object hides an inherited one of
    the same name. *)
Definition objectFrameHandler (commands : string → option (Socket → Frame → M Value))
    (constructor : Socket → Frame → M Value) : FrameHandler :=
  λ name,
    match commands name with
    | Some cmdFunc => Some cmdFunc
    | None => inherited_member constructor name
    end.

(** Modelled from the spec: [BYTES.LF] of the missing [lib/bytes], "the
    single byte 0x0A (LF)". *)
Definition BYTES_LF : string := String (ascii_of_nat 10) EmptyString.

(** Modelled from the spec: the separators of [tokenizeDestination] of the
    missing [lib/stomp-utils], "splits the destination on [.] and [/]". *)
Definition is_separator (c : ascii) : bool :=
  (Ascii.eqb c "."%char || Ascii.eqb c "/"%char)%bool.

(** Modelled from the spec: the split itself, as the first token and the
    tokens after it. *)
Fixpoint split_tokens (s : string) : string * list string :=
  match s with
  | EmptyString => (EmptyString, [])
  | String c s' =>
      let '(tok, toks) := split_tokens s' in
      if is_separator c then (EmptyString, tok :: toks) else (String c tok, toks)
  end.

(** Modelled from the spec: [tokenizeDestination] of the missing
    [lib/stomp-utils], "Tokenization splits the destination on [.] and [/]".
    As with [String.prototype.split], a leading separator yields an empty
    first token. *)
Definition spec_tokenizeDestination (dest : string) : list string :=
  let '(tok, toks) := split_tokens dest in tok :: toks.

(** Modelled from the spec: the command line of the wire grammar
    [COMMAND LF (HEADER LF)* LF BODY NUL], the text before the first LF. *)
Fixpoint command_line (data : string) : string :=
  match data with
  | EmptyString => EmptyString
  | String c data' =>
      if Ascii.eqb c (ascii_of_nat 10) then EmptyString else String c (command_line data')
  end.

(** The text of a payload; the bytes of a [Buffer] are read as UTF-8, which
    is how strings are kept. *)
Definition data_text (data : Data) : string :=
  match data with
  | DString s => s
  | DBuffer bytes => string_of_list_byte bytes
  end.

(** Modelled from the spec: [parseFrame] of the missing [lib/stomp-utils],
    as far as the command goes; the headers and the body are not decoded. *)
Definition spec_parseFrame (data : Data) : Frame :=
  {| frame_command := Some (command_line (data_text data)); frame_headers := ∅;
     frame_body := BUndefined |}.

(** ** Destination matcher, continued *)

(** [_checkSubMatchDest] (lines 492-505). *)
Definition _checkSubMatchDest `{StompUtils} (sub : Subscription) (args : SendArgs) : bool :=
  let tokens := tokenizeDestination (args_dest args) in
  checkLoop (sub_tokens sub) 0 tokens.

(** ** Frames *)

Definition is_json (frame : Frame) : bool :=
  bool_decide (frame_headers frame !! "content-type" = Some (HStr "application/json")).

Definition with_body (frame : Frame) (b : Body) : Frame :=
  {| frame_command := frame_command frame; frame_headers := frame_headers frame;
     frame_body := b |}.

Definition with_header (frame : Frame) (key : string) (v : HVal) : Frame :=
  {| frame_command := frame_command frame;
     frame_headers := <[key := v]> (frame_headers frame);
     frame_body := frame_body frame |}.

(** [frameSerializer] (lines 405-410). *)
Definition frameSerializer `{JSON} (frame : Frame) : Frame :=
  match frame_body frame with
  | BUndefined => frame
  | BBuffer _ => frame
  | b => if is_json frame then with_body frame (BString (JSON_stringify b)) else frame
  end.

(** [frameParser] (lines 419-424); [JSON.parse] may throw. *)
Definition frameParser `{JSON} (frame : Frame) : M Frame :=
  match frame_body frame with
  | BUndefined => ret frame
  | b =>
      if is_json frame then
        match JSON_parse b with
        | inr v => ret (with_body frame v)
        | inl e => throw e
        end
      else ret frame
  end.

(** ** Send *)

(** One turn of the loop of [_sendToSubscriptions] (lines 351-365) for the
    entry [sub]; the result is [args] as the turn leaves it, since
    [args.frame] is written in place. *)
Definition sendToSubscription `{StompUtils} (socket : Socket) (sub : Subscription)
    (args : SendArgs) : M SendArgs :=
  if (sock_sessionId socket =? sub_sessionId sub)%string then ret args
  else if _checkSubMatchDest sub args then
    let frame :=
      {| frame_command := Some "MESSAGE";
         frame_headers := <["subscription" := HStr (sub_id sub)]> (frame_headers (args_frame args));
         frame_body := frame_body (args_frame args) |} in
    let args := {| args_dest := args_dest args; args_frame := frame |} in
    let* _ := match sub_socket sub with
              | Some sock => sendFrame sock frame
              | None => emit (sub_id sub) (PMessage (frame_body frame) (frame_headers frame))
              end in
    ret args
  else ret args.

Fixpoint sendLoop `{StompUtils} (socket : Socket) (subs : list Subscription)
    (args : SendArgs) : M SendArgs :=
  match subs with
  | [] => ret args
  | sub :: rest =>
      let* args := sendToSubscription socket sub args in
      sendLoop socket rest args
  end.

(** [_sendToSubscriptions] (lines 349-367).  Nothing in the loop writes
    [this.subscribes], so the entries visited are those present on entry. *)
Definition _sendToSubscriptions `{StompUtils} (socket : Socket) (args : SendArgs) : M SendArgs :=
  let* srv := this in
  sendLoop socket (subscribes srv) args.

(** The terminal handler of [onSend] (lines 178-215).  [withMiddleware]
    calls it with [socket] and [args] only, so [callback] is [undefined].
    The object [headers] is built and filled but never read.  [body.length]
    is the number of UTF-16 code units of a string ([js_length]) and the
    number of bytes of a [Buffer]. *)
Definition onSend_final `{StompUtils} `{JSON} (socket : Socket) (args : SendArgs) : M Value :=
  let bodyObj := frame_body (args_frame args) in
  let frame := frameSerializer (args_frame args) in
  let headers : gmap string HVal :=
    {[ "message-id" := HStr (genId "msg"); "content-type" := HStr "text/plain" ]} in
  let* frame :=
    match frame_body frame with
    | BUndefined => ret frame
    | BString s =>
        ret (with_header frame "content-length" (HNum (Z.of_nat (js_length s))))
    | BBuffer bytes =>
        ret (with_header frame "content-length" (HNum (Z.of_nat (length bytes))))
    | BStruct _ => throw (ThrownString "Message body is not string")
    end in
  let headers := frame_headers frame ∪ headers in
  let args := {| args_dest := args_dest args; args_frame := frame |} in
  let* _ := emit "send" (PSend (args_dest args) (frame_headers frame) bodyObj) in
  let* _ := _sendToSubscriptions socket args in
  ret (VBool true).

(** [selfSocket] (lines 273-275): the pseudo-session of the host.  It is an
    object of its own, here the handle 0. *)
Definition selfSocket : Socket := {| sock_ref := 0; sock_sessionId := "self_1234" |}.

(** ** Subscribe and unsubscribe *)

(** The terminal handler of [onSubscribe] (lines 229-241). *)
Definition onSubscribe_final `{StompUtils} (socket : Socket) (args : SubscribeArgs) : M Value :=
  let sub :=
    {| sub_id := sargs_id args;
       sub_sessionId := sock_sessionId socket;
       sub_topic := sargs_dest args;
       sub_tokens := tokenizeDestination (sargs_dest args);
       sub_socket := Some socket |} in
  let* _ := update (set_subscribes (λ l, l ++ [sub])) in
  let* _ := emit "subscribe" (PSubscription sub) in
  let* _ := debug ["Server subscribe"; sargs_id args; sargs_dest args] in
  ret (VBool true).

(** The search of [onUnsubscribe] (lines 257-264): the first index [i], at
    or after the running index, whose entry has this id and session. *)
Fixpoint unsubscribeLoop (socket : Socket) (subId : string) (i : nat)
    (rest : list Subscription) : option (nat * Subscription) :=
  match rest with
  | [] => None
  | sub :: rest' =>
      if (sub_id sub =? subId)%string && (sub_sessionId sub =? sock_sessionId socket)%string
      then Some (i, sub)
      else unsubscribeLoop socket subId (S i) rest'
  end.

(** The terminal handler of [onUnsubscribe] (lines 256-266). *)
Definition onUnsubscribe_final (socket : Socket) (subId : string) : M Value :=
  let* srv := this in
  match unsubscribeLoop socket subId 0 (subscribes srv) with
  | Some (i, sub) =>
      let* _ := update (set_subscribes (delete i)) in
      let* _ := emit "unsubscribe" (PSubscription sub) in
      ret (VBool true)
  | None => ret (VBool false)
  end.

(** [subscribe] (lines 305-324).  [random] is the draw
    [Math.floor(Math.random() * 99999999999)] printed in decimal; an empty
    [headers.id] is falsy.  The listener table of the [EventEmitter] is not
    part of the model, so [this.on(id, callback)] leaves no trace. *)
Definition subscribe `{StompUtils} (topic : string) (headers_id : option string)
    (random : string) : M string :=
  let id :=
    match headers_id with
    | None => "self_" +:+ random
    | Some hid => if (hid =? "")%string then "self_" +:+ random else hid
    end in
  let sub :=
    {| sub_id := id; sub_sessionId := "self_1234"; sub_topic := topic;
       sub_tokens := tokenizeDestination topic; sub_socket := None |} in
  let* _ := update (set_subscribes (λ l, l ++ [sub])) in
  let* _ := emit "subscribe" (PSubscription sub) in
  ret id.

(** ** Heartbeat *)

(** [heartbeatOn] (lines 438-466); [now] is the reading of [Date.now()].
    [setInterval] returns a timer not yet in use. *)
Definition heartbeatOn (socket : Socket) (interval : Z) (serverSide : bool) (now : Z) : M unit :=
  let* srv := this in
  let t : TimerId := fresh (dom (intervals srv)) in
  let timer :=
    {| timer_socket := socket; timer_interval := interval; timer_serverSide := serverSide |} in
  let* _ := if serverSide then ret tt
            else update (set_heartbeatTime <[sock_ref socket := (now + interval)%Z]>) in
  let* _ := update (set_intervals <[t := timer]>) in
  update (set_heartbeatClock <[sock_ref socket := t]>).

(** [heartbeatOff] (lines 474-479). *)
Definition heartbeatOff (socket : Socket) : M unit :=
  let* srv := this in
  match heartbeatClock srv !! sock_ref socket with
  | Some t =>
      let* _ := update (set_intervals (delete t)) in
      update (set_heartbeatClock (delete (sock_ref socket)))
  | None => ret tt
  end.

(** ** Teardown *)

(** The loop of [afterConnectionClose] (lines 515-520) from index [i]:
    [splice(i--, 1)] followed by the loop's [i++] leaves [i] where it was. *)
Equations? closeLoop (sessionId : string) (i : nat) (subs : list Subscription)
    : list Subscription by wf (length subs - i) lt :=
  closeLoop sessionId i subs with inspect (subs !! i) => {
    | exist _ None _ := subs;
    | exist _ (Some sub) _ with (sub_sessionId sub =? sessionId)%string => {
        | true := closeLoop sessionId i (delete i subs);
        | false := closeLoop sessionId (S i) subs } }.
Proof.
  - apply lookup_lt_Some in e.
    rewrite length_delete by (apply lookup_lt_is_Some_2; lia). lia.
  - apply lookup_lt_Some in e. lia.
Qed.

(** [afterConnectionClose] (lines 513-524). *)
Definition afterConnectionClose (socket : Socket) : M unit :=
  let* _ := update (set_subscribes (closeLoop (sock_sessionId socket) 0)) in
  heartbeatOff socket.

(** The terminal handler of [onDisconnect] (lines 161-167). *)
Definition onDisconnect_final (socket : Socket) (receiptId : option string) : M Value :=
  let* _ := afterConnectionClose socket in
  let* _ := debug ["DISCONNECT"; sock_sessionId socket] in
  let* _ := emit "disconnected" (PSession (sock_sessionId socket)) in
  ret (VBool true).

(** ** Middleware *)

(** What an interceptor does with its [next] argument: it returns, or it
    calls [next()] and goes on with what that call returned, any number of
    times.  Side effects of its own are outside the model, and an exception
    thrown under [next()] passes through it. *)
Inductive Script :=
| Return (v : Value)
| CallNext (k : Value → Script).

(** The code of the function objects registered as middleware for a command
    whose handlers take arguments of type [A]. *)
Class Interceptors (A : Type) := interceptor : FnRef → Socket → A → Script.

(** [addMiddleware] (lines 86-92). *)
Definition addMiddleware (command : string) (handler : FnRef) : M unit :=
  let command := toLowerCase command in
  let* srv := this in
  let* _ := match middleware srv !! command with
            | Some _ => ret tt
            | None => update (set_middleware <[command := []]>)
            end in
  update (set_middleware (alter (λ handlers, handlers ++ [handler]) command)).

(** [setMiddleware] (lines 99-102). *)
Definition setMiddleware (command : string) (handler : FnRef) : M unit :=
  let command := toLowerCase command in
  update (set_middleware <[command := [handler]]>).

(** [Array.prototype.indexOf]: the first index holding [handler], or [-1]. *)
Fixpoint indexOf_from (handler : FnRef) (i : Z) (handlers : list FnRef) : Z :=
  match handlers with
  | [] => (-1)%Z
  | h :: rest => if decide (h = handler) then i else indexOf_from handler (i + 1)%Z rest
  end.

Definition indexOf (handlers : list FnRef) (handler : FnRef) : Z :=
  indexOf_from handler 0%Z handlers.

(** [removeMiddleware] (lines 109-115): [handlers.indexOf] is evaluated on
    whatever the lookup gave, [undefined] included. *)
Definition removeMiddleware (command : string) (handler : FnRef) : M unit :=
  let* srv := this in
  match middleware srv !! toLowerCase command with
  | None => throw (TypeError "Cannot read properties of undefined (reading 'indexOf')")
  | Some handlers =>
      let idx := indexOf handlers handler in
      if (idx >=? 0)%Z
      then update (set_middleware <[toLowerCase command := delete (Z.to_nat idx) handlers]>)
      else ret tt
  end.

(** Running the body of an interceptor.  [iter] is the position of the
    array iterator shared by all the calls of [callNext] of one command
    (line 121); [next] is [callNext]. *)
Fixpoint runScript (next : nat → M (Value * nat)) (s : Script) (iter : nat)
    : M (Value * nat) :=
  match s with
  | Return v => ret (v, iter)
  | CallNext k =>
      let* (r, iter') := next iter in
      runScript next (k r) iter'
  end.

(** [callNext] (lines 124-130).  [iter.next()] is done when the position is
    past the end of [handlers]; otherwise it yields the handler there and
    moves on.  A call of [next()] made by an interceptor nests one level
    deeper; [fuel] bounds the nesting. *)
Fixpoint callNext {A} `{Interceptors A} (command : string)
    (finalHandler : Socket → A → M Value) (handlers : list FnRef)
    (socket : Socket) (args : A) (fuel : nat) (iter : nat) : M (Value * nat) :=
  match fuel with
  | 0 => fun srv => (OutOfFuel, srv)
  | S fuel' =>
      match handlers !! iter with
      | None =>
          let* _ := called (CallFinal command) in
          let* r := finalHandler socket args in
          ret (r, iter)
      | Some h =>
          let* _ := called (CallInterceptor h) in
          runScript (callNext command finalHandler handlers socket args fuel')
                    (interceptor h socket args) (S iter)
      end
  end.

(** [withMiddleware] (lines 118-133).  Every position of [handlers] is left
    behind by one level of nesting at most, so the depth never exceeds
    [length handlers + 1] (see [callNext_fuel] and [withMiddleware_total]). *)
Definition withMiddleware {A} `{Interceptors A} (command : string)
    (finalHandler : Socket → A → M Value) (socket : Socket) (args : A) : M Value :=
  let* srv := this in
  let handlers := default [] (middleware srv !! toLowerCase command) in
  let* (r, _) := callNext command finalHandler handlers socket args (S (length handlers)) 0 in
  ret r.

Definition onSend `{StompUtils} `{JSON} `{Interceptors SendArgs} :=
  withMiddleware "send" onSend_final.
Definition onSubscribe `{StompUtils} `{Interceptors SubscribeArgs} :=
  withMiddleware "subscribe" onSubscribe_final.
Definition onUnsubscribe `{Interceptors string} :=
  withMiddleware "unsubscribe" onUnsubscribe_final.
Definition onDisconnect `{Interceptors (option string)} :=
  withMiddleware "disconnect" onDisconnect_final.

(** [unsubscribe] (lines 332-335). *)
Definition unsubscribe `{Interceptors string} (id : string) : M Value :=
  onUnsubscribe selfSocket id.

(** [send] (lines 376-392). *)
Definition send `{StompUtils} `{JSON} `{Interceptors SendArgs} (topic : string)
    (headers : option (gmap string HVal)) (body : Body) : M unit :=
  let _headers : gmap string HVal := default ∅ headers in
  let frame := {| frame_command := None; frame_headers := _headers; frame_body := body |} in
  let* frame := frameParser frame in
  let args := {| args_dest := topic; args_frame := frame |} in
  let* _ := onSend selfSocket args in
  ret tt.

(** ** Requests *)

(** The part of [parseRequest] under the comment [normal data] (lines
    541-548).  A frame without a command reads [this.frameHandler[undefined]],
    which is [undefined]. *)
Definition parseRequest_normal `{StompUtils} `{JSON} `{FrameHandler}
    (socket : Socket) (data : Data) : M Value :=
  let* _ := called (CallParseFrame data) in
  let frame := parseFrame data in
  match frame_command frame with
  | None => ret (VString "Command not found")
  | Some command =>
      match frameHandler command with
      | Some cmdFunc =>
          let* frame := frameParser frame in
          let* _ := called (CallCommand command) in
          cmdFunc socket frame
      | None => ret (VString "Command not found")
      end
  end.

(** [data === s] for a string [s] (line 534): a [Buffer] is an object and
    never strictly equal to a string, whatever bytes it holds. *)
Definition strict_equal_string (data : Data) (s : string) : bool :=
  match data with
  | DString s' => (s' =? s)%string
  | DBuffer _ => false
  end.

(** [parseRequest] (lines 527-549); [now] is the reading of [Date.now()]. *)
Definition parseRequest `{StompUtils} `{JSON} `{FrameHandler}
    (socket : Socket) (data : Data) (now : Z) : M Value :=
  let* srv := this in
  match heartbeatClock srv !! sock_ref socket with
  | Some _ =>
      let* _ := update (set_heartbeatTime <[sock_ref socket := now]>) in
      if strict_equal_string data BYTES_LF
      then let* _ := debug ["PONG"] in ret VUndefined
      else parseRequest_normal socket data
  | None => parseRequest_normal socket data
  end.

(** ** Vocabulary of the properties *)



(** A pattern token that accepts one destination token: the same text, or
    the single-segment wildcard. *)
Definition segment_match (st token : string) : Prop := st = token ∨ st = "*".

(** [ev] is the delivery of a MESSAGE for the registry entry [sub]: the
    frame written to the entry's socket, or the event named by the entry's id
    when the entry has no socket. *)
Definition delivers (sub : Subscription) (ev : Event) : Prop :=
  match ev with
  | EvSendFrame sock frame =>
      sub_socket sub = Some sock
      ∧ frame_command frame = Some "MESSAGE"
      ∧ frame_headers frame !! "subscription" = Some (HStr (sub_id sub))
  | EvEmit name (PMessage _ headers) =>
      sub_socket sub = None
      ∧ name = sub_id sub
      ∧ headers !! "subscription" = Some (HStr (sub_id sub))
  | _ => False
  end.

(** Every MESSAGE among the effects is the delivery for an entry of [subs]
    that belongs to another session than [socket]'s. *)
Definition foreign_delivery (socket : Socket) (subs : list Subscription) (ev : Event) : Prop :=
  match ev with
  | EvSendFrame _ _ | EvEmit _ (PMessage _ _) =>
      ∃ sub, sub ∈ subs ∧ sub_sessionId sub ≠ sock_sessionId socket ∧ delivers sub ev
  | _ => True
  end.

(** From [srv] to [srv'] the registry is the same and the effects added
    deliver to other sessions only. *)
Definition sends_only_to_others (socket : Socket) (srv srv' : StompServer) : Prop :=
  subscribes srv' = subscribes srv
  ∧ ∃ evs, out srv' = out srv ++ evs ∧ Forall (foreign_delivery socket (subscribes srv)) evs.

(** The session id of an entry is that of its socket, or the host's when it
    has none: what [onSubscribe] and [subscribe] write. *)
Definition registry_wf (subs : list Subscription) : Prop :=
  Forall (λ sub, match sub_socket sub with
                 | Some sock => sock_sessionId sock = sub_sessionId sub
                 | None => sub_sessionId sub = sock_sessionId selfSocket
                 end) subs.

(** A MESSAGE among the effects does not go to the session of [socket]: it
    is written to a socket of another session, or raised for the host when
    [socket] is not the host's. *)
Definition not_to_session (socket : Socket) (ev : Event) : Prop :=
  match ev with
  | EvSendFrame sock _ => sock_sessionId sock ≠ sock_sessionId socket
  | EvEmit _ (PMessage _ _) => sock_sessionId socket ≠ sock_sessionId selfSocket
  | _ => True
  end.

(** The entries of the registry that do not belong to [socket]'s session. *)
Definition others (socket : Socket) (subs : list Subscription) : list Subscription :=
  filter (λ sub, sub_sessionId sub ≠ sock_sessionId socket) subs.

(** A method keeps the relation [R] between the state it is called in and
    the state it leaves, however it completes. *)
Definition preserves {A} (R : relation StompServer) (m : M A) : Prop :=
  ∀ srv, R srv (m srv).2.

(** From [srv] to [srv'] effects were added, each of which satisfies [P]. *)
Definition adds_only (P : Event → Prop) (srv srv' : StompServer) : Prop :=
  ∃ evs, out srv' = out srv ++ evs ∧ Forall P evs.

(** An interceptor body that returns without calling [next()], and one that
    calls it exactly once. *)
Definition returns_without_next (s : Script) : Prop := ∃ v, s = Return v.

Definition invokes_next_once (s : Script) : Prop :=
  ∃ k, s = CallNext k ∧ ∀ r, returns_without_next (k r).

(** The result of a chain is the result of its innermost call as the
    interceptors pass it on. *)
Definition Completion_map {A B} (f : A → B) (c : Completion A) : Completion B :=
  match c with
  | Normal a => Normal (f a)
  | Throw e => Throw e
  | OutOfFuel => OutOfFuel
  end.

(** A registration of middleware, and the server after a history of them. *)
Inductive Registration :=
| RegAdd (command : string) (handler : FnRef)
| RegSet (command : string) (handler : FnRef).

Definition reg_command (r : Registration) : string :=
  match r with RegAdd command _ | RegSet command _ => command end.

Definition register (r : Registration) : M unit :=
  match r with
  | RegAdd command handler => addMiddleware command handler
  | RegSet command handler => setMiddleware command handler
  end.

Definition registered_from (srv : StompServer) (history : list Registration) : StompServer :=
  foldl (λ srv r, (register r srv).2) srv history.

(** [this.frameHandler[frame.command]] is [undefined]: the frame handler
    has no member under the command of the frame, own or inherited. *)
Definition no_member `{FrameHandler} (frame : Frame) : Prop :=
  match frame_command frame with
  | Some command => frameHandler command = None
  | None => True
  end.

(** The command of the frame is none of the command functions [commands]:
    it is not a supported command. *)
Definition unsupported (commands : string → option (Socket → Frame → M Value))
    (frame : Frame) : Prop :=
  match frame_command frame with
  | Some command => commands command = None
  | None => True
  end.

(** The server after line 531: the timestamp of a socket with an armed
    heartbeat is the clock reading. *)
Definition beat (socket : Socket) (now : Z) (srv : StompServer) : StompServer :=
  match heartbeatClock srv !! sock_ref socket with
  | Some _ => set_heartbeatTime <[sock_ref socket := now]> srv
  | None => srv
  end.

(** ** Collaborators for concrete runs *)

(** Modelled from the spec: [genId] of the missing [lib/stomp-utils], "fresh
    unique id".  The server never reads the id it draws in [onSend], and the
    runs below draw at most one, so the draw is the prefix itself. *)
Definition spec_genId (prefix : string) : string := prefix.

(** Modelled from the spec: the helpers of the missing [lib/stomp-utils]
    put together. *)
Definition specUtils : StompUtils :=
  {| genId := spec_genId;
     tokenizeDestination := spec_tokenizeDestination;
     parseFrame := spec_parseFrame |}.

(** A [JSON] for runs whose frames are not [application/json]: neither
    function is reached there. *)
Definition plainJSON : JSON :=
  {| JSON_stringify := λ _, "null"; JSON_parse := λ b, inr b |}.

(** Modelled from the spec: the names under which the missing [lib/stomp]
    registers command functions, "Supported client commands: CONNECT, STOMP,
    SEND, SUBSCRIBE, UNSUBSCRIBE, DISCONNECT".  What the functions do is not
    in [stompServer.js]; here they return at once. *)
Definition supported_commands : list string :=
  ["CONNECT"; "STOMP"; "SEND"; "SUBSCRIBE"; "UNSUBSCRIBE"; "DISCONNECT"].

(** Modelled from the spec: the command functions of the missing
    [lib/stomp], as far as which commands have one goes. *)
Definition spec_commands : string → option (Socket → Frame → M Value) :=
  λ command,
    if bool_decide (command ∈ supported_commands)
    then Some (λ _ _, ret VUndefined)
    else None.

(** The frame handler for concrete runs: an ordinary object with these
    command functions, whose constructor returns at once like them. *)
Definition specFrameHandler : FrameHandler :=
  objectFrameHandler spec_commands (λ _ _, ret VUndefined).

(** No middleware code: for runs on a server without middleware. *)
Definition noInterceptors (A : Type) : Interceptors A := λ _ _ _, Return VUndefined.

(** Subscriptions and publications for the wildcard scenarios of the
    specification, on the tokenizer modelled from it. *)
Definition pattern (topic : string) : Subscription :=
  {| sub_id := "1"; sub_sessionId := "A"; sub_topic := topic;
     sub_tokens := spec_tokenizeDestination topic; sub_socket := None |}.

Definition publish_to (dest : string) : SendArgs :=
  {| args_dest := dest;
     args_frame := {| frame_command := None; frame_headers := ∅; frame_body := BUndefined |} |}.

(** The sessions of the specification's scenarios: A subscribes to [/foo]
    with id [1] on a new server, then B sends [hello] to [/foo] with no
    header besides the destination. *)
Definition sockA : Socket := {| sock_ref := 1; sock_sessionId := "A" |}.
Definition sockB : Socket := {| sock_ref := 2; sock_sessionId := "B" |}.

Definition subscribe_foo : SubscribeArgs := {| sargs_dest := "/foo"; sargs_id := "1" |}.

Definition srv_A_subscribed : StompServer :=
  (@onSubscribe specUtils (noInterceptors _) sockA subscribe_foo newStompServer).2.

Definition send_hello : SendArgs :=
  {| args_dest := "/foo";
     args_frame := {| frame_command := Some "SEND";
                      frame_headers := {[ "destination" := HStr "/foo" ]};
                      frame_body := BString "hello" |} |}.

(** The MESSAGE frames handed to [sendFrame] in a list of effects. *)
Definition frames_sent (evs : list Event) : list Frame :=
  omap (λ ev, match ev with EvSendFrame _ frame => Some frame | _ => None end) evs.

(** A MESSAGE among the effects carries under [key] what [headers0] has
    there. *)
Definition same_header (key : string) (headers0 : gmap string HVal) (ev : Event) : Prop :=
  match ev with
  | EvSendFrame _ frame => frame_headers frame !! key = headers0 !! key
  | EvEmit _ (PMessage _ headers) => headers !! key = headers0 !! key
  | _ => True
  end.

(** The registry entries with the session and id of [sub]. *)
Definition same_key (sub : Subscription) (subs : list Subscription) : list Subscription :=
  filter (λ s, sub_sessionId s = sub_sessionId sub ∧ sub_id s = sub_id sub) subs.

(** A server on which A and B both subscribed to [/foo] and the heartbeat
    of A's socket was switched on (the client pings every 10 s, clock reading
    1000). *)
Definition srv_AB_heartbeat : StompServer :=
  (heartbeatOn sockA 10000 false 1000
     (@onSubscribe specUtils (noInterceptors _) sockB subscribe_foo srv_A_subscribed).2).2.

(** Middleware for concrete runs.  Every function calls [next()] once and
    returns what it gave. *)
Definition passers (A : Type) : Interceptors A :=
  λ _ _ _, CallNext (λ r, Return r).

(** The function [stop] returns [false] at once; the others call [next()]
    once. *)
Definition stopAt (stop : FnRef) (A : Type) : Interceptors A :=
  λ f _ _, if decide (f = stop) then Return (VBool false) else CallNext (λ r, Return r).

(** The function [twice] calls [next()], drops what it gave, and calls
    [next()] again; the others return [false] at once. *)
Definition nextTwice (twice : FnRef) (A : Type) : Interceptors A :=
  λ f _ _, if decide (f = twice) then CallNext (λ _, CallNext (λ r, Return r))
           else Return (VBool false).

(** A new server on which the functions 1, 2 and 3 were added, in this
    order, as middleware for [subscribe]; and one with 1 and 2 only. *)
Definition srv_three_interceptors : StompServer :=
  registered_from newStompServer
    [RegAdd "subscribe" 1; RegAdd "SUBSCRIBE" 2; RegAdd "Subscribe" 3].

Definition srv_two_interceptors : StompServer :=
  registered_from newStompServer [RegAdd "subscribe" 1; RegAdd "subscribe" 2].

(** The payload of a BEGIN frame, a command of STOMP 1.1 that the broker
    does not support: [BEGIN LF transaction:tx1 LF LF NUL]. *)
Definition begin_frame : string :=
  "BEGIN" +:+ BYTES_LF +:+ "transaction:tx1" +:+ BYTES_LF +:+ BYTES_LF
  +:+ String (ascii_of_nat 0) EmptyString.

(** The sockets that were handed a frame, in order. *)
Definition frame_targets (evs : list Event) : list Socket :=
  omap (λ ev, match ev with EvSendFrame sock _ => Some sock | _ => None end) evs.

(** The names of the events emitted to the host with a MESSAGE. *)
Definition messages_emitted (evs : list Event) : list string :=
  omap (λ ev, match ev with EvEmit name (PMessage _ _) => Some name | _ => None end) evs.

(** A new server on which the host subscribed to [/t] (no id given, the
    draw is 42). *)
Definition srv_host_subscribed : StompServer :=
  (@subscribe specUtils "/t" None "42" newStompServer).2.

Definition send_m : SendArgs :=
  {| args_dest := "/t";
     args_frame := {| frame_command := Some "SEND";
                      frame_headers := {[ "destination" := HStr "/t" ]};
                      frame_body := BString "m" |} |}.

(** ** Vocabulary of the further properties *)

(** A pattern with no multi-segment wildcard. *)
Definition double_star_free (subTokens : list string) : bool :=
  forallb (λ st, negb (st =? "**")%string) subTokens.

(** The registry entries a SEND of [socket] with [args] is delivered to:
    those of the other sessions that match the destination. *)
Definition matching `{StompUtils} (socket : Socket) (args : SendArgs)
    (subs : list Subscription) : list Subscription :=
  filter (λ sub, sub_sessionId sub ≠ sock_sessionId socket
                 ∧ _checkSubMatchDest sub args = true) subs.

(** The MESSAGE frame made of the frame of [args] for the entry [sub], and
    the effect that delivers it. *)
Definition message_for (args : SendArgs) (sub : Subscription) : Frame :=
  {| frame_command := Some "MESSAGE";
     frame_headers := <["subscription" := HStr (sub_id sub)]> (frame_headers (args_frame args));
     frame_body := frame_body (args_frame args) |}.

Definition delivery (args : SendArgs) (sub : Subscription) : Event :=
  match sub_socket sub with
  | Some sock => EvSendFrame sock (message_for args sub)
  | None =>
      EvEmit (sub_id sub)
        (PMessage (frame_body (message_for args sub)) (frame_headers (message_for args sub)))
  end.

(** Two [args] that differ at most in the command and the [subscription]
    header of their frames, as [args] does between two turns of the loop of
    [_sendToSubscriptions]. *)
Definition same_send (args args' : SendArgs) : Prop :=
  args_dest args' = args_dest args
  ∧ frame_body (args_frame args') = frame_body (args_frame args)
  ∧ ∀ v, <["subscription" := v]> (frame_headers (args_frame args'))
         = <["subscription" := v]> (frame_headers (args_frame args)).

(** [args] with another frame. *)
Definition with_frame (args : SendArgs) (frame : Frame) : SendArgs :=
  {| args_dest := args_dest args; args_frame := frame |}.

(** A [JSON] for runs on the malformed text [{]: [JSON.parse] throws on it
    and is not reached on anything else there. *)
Definition brokenTextJSON : JSON :=
  {| JSON_stringify := λ _, "null";
     JSON_parse := λ b, match b with
                        | BString "{" => inl (SyntaxError "Unexpected end of JSON input")
                        | _ => inr b
                        end |}.

(** The frame with its [content-length] set as [onSend] sets it (lines
    187-192): to the length of a string or [Buffer] body, and not at all
    without a body. *)
Definition with_content_length (frame : Frame) : Frame :=
  match frame_body frame with
  | BString s => with_header frame "content-length" (HNum (Z.of_nat (js_length s)))
  | BBuffer bytes => with_header frame "content-length" (HNum (Z.of_nat (length bytes)))
  | _ => frame
  end.

(** B sends a structured value to [/foo] as [application/json]. *)
Definition send_json : SendArgs :=
  {| args_dest := "/foo";
     args_frame := {| frame_command := Some "SEND";
                      frame_headers := {[ "destination" := HStr "/foo";
                                          "content-type" := HStr "application/json" ]};
                      frame_body := BStruct 7 |} |}.

(** B sends a frame without a body to [/foo]. *)
Definition send_empty : SendArgs :=
  {| args_dest := "/foo";
     args_frame := {| frame_command := Some "SEND";
                      frame_headers := {[ "destination" := HStr "/foo" ]};
                      frame_body := BUndefined |} |}.

(** The bodies handed to the host's listeners of [send]. *)
Definition send_event_bodies (evs : list Event) : list Body :=
  omap (λ ev, match ev with EvEmit "send" (PSend _ _ body) => Some body | _ => None end) evs.

(** The entry is the one [onUnsubscribe] looks for: it has the id [subId]
    and the session of [socket]. *)
Definition has_key (socket : Socket) (subId : string) (sub : Subscription) : Prop :=
  sub_id sub = subId ∧ sub_sessionId sub = sock_sessionId socket.

(** The entry [onSubscribe] makes. *)
Definition new_subscription `{StompUtils} (socket : Socket) (args : SubscribeArgs)
    : Subscription :=
  {| sub_id := sargs_id args;
     sub_sessionId := sock_sessionId socket;
     sub_topic := sargs_dest args;
     sub_tokens := tokenizeDestination (sargs_dest args);
     sub_socket := Some socket |}.

(** The id [subscribe] gives a subscription of the host (lines 306-311):
    [headers.id] when it is there and not empty, a drawn one otherwise. *)
Definition host_id (headers_id : option string) (random : string) : string :=
  match headers_id with
  | None => "self_" +:+ random
  | Some hid => if (hid =? "")%string then "self_" +:+ random else hid
  end.

(** A subscription of B to [/bar] under the id [1], which A uses too. *)
Definition subscribe_bar : SubscribeArgs := {| sargs_dest := "/bar"; sargs_id := "1" |}.

(** A server on which B, then A, then A again subscribed with the id [1]:
    B to [/bar], A to [/foo] and then to [/bar]. *)
Definition srv_BAA_subscribed : StompServer :=
  (@onSubscribe_final specUtils sockA subscribe_bar
     (@onSubscribe_final specUtils sockA subscribe_foo
        (@onSubscribe_final specUtils sockB subscribe_bar newStompServer).2).2).2.

(** The handlers that a history adds for the command with the lower-case
    name [key], in the order of the history. *)
Definition added_for (key : string) (history : list Registration) : list FnRef :=
  omap (λ r, match r with
             | RegAdd command handler =>
                 if decide (toLowerCase command = key) then Some handler else None
             | RegSet _ _ => None
             end) history.

(** The history has no [setMiddleware]. *)
Definition adds_only_history (history : list Registration) : Prop :=
  Forall (λ r, match r with RegAdd _ _ => True | RegSet _ _ => False end) history.

(** How often [handler] occurs in a list of handlers. *)
Definition occurrences (handler : FnRef) (handlers : list FnRef) : nat :=
  length (filter (λ h, h = handler) handlers).


(** ** Timer callbacks *)

(** What a timer callback does to its socket: [socket.send(data)] or
    [socket.close()].  One run of a callback does one of them at most, and
    the callbacks below return it. *)
Inductive SocketOp :=
| SocketSend (data : string)
| SocketClose.

(** The callback of a server-side timer (lines 444-449); [readyState] is the
    reading of [socket.readyState]. *)
Definition serverPing (readyState : Z) : M (option SocketOp) :=
  if (readyState =? 1)%Z
  then let* _ := debug ["PING"] in ret (Some (SocketSend BYTES_LF))
  else ret None.

(** The callback of a client-side timer (lines 455-464); [now] is the
    reading of [Date.now()], [heartbeatErrorMargin] that of
    [self.conf.heartbeatErrorMargin].  The numbers handed to [conf.debug] are
    written in decimal.  A socket without [heartbeatTime] has [undefined]
    there: [diff] is [NaN], the comparison is false, and [heartbeatTime]
    becomes [NaN], which the map keeps as absent. *)
Definition healthCheck (socket : Socket) (interval heartbeatErrorMargin now : Z)
    : M (option SocketOp) :=
  let* srv := this in
  match heartbeatTime srv !! sock_ref socket with
  | Some time =>
      let diff := (now - time)%Z in
      if (diff >? interval + heartbeatErrorMargin)%Z
      then
        let* _ := debug ["HEALTH CHECK failed! Closing"; pretty diff; pretty interval] in
        ret (Some SocketClose)
      else
        let* _ := debug ["HEALTH CHECK ok!"; pretty diff; pretty interval] in
        let* _ := update (set_heartbeatTime <[sock_ref socket := (time - diff)%Z]>) in
        ret None
  | None =>
      let* _ := debug ["HEALTH CHECK ok!"; "NaN"; pretty interval] in
      ret None
  end.

(** The timer [t] fires: [setInterval] runs the callback that [heartbeatOn]
    handed to it (line 444 or 455); a timer that [clearInterval] took away
    does not fire. *)
Definition tick (t : TimerId) (heartbeatErrorMargin readyState now : Z)
    : M (option SocketOp) :=
  let* srv := this in
  match intervals srv !! t with
  | None => ret None
  | Some timer =>
      if timer_serverSide timer then serverPing readyState
      else healthCheck (timer_socket timer) (timer_interval timer) heartbeatErrorMargin now
  end.

(** The timer [t] fires at each of [times] in turn, with nothing else
    happening on the server in between. *)
Fixpoint ticks (t : TimerId) (heartbeatErrorMargin readyState : Z) (times : list Z)
    : M (list (option SocketOp)) :=
  match times with
  | [] => ret []
  | now :: times =>
      let* op := tick t heartbeatErrorMargin readyState now in
      let* ops := ticks t heartbeatErrorMargin readyState times in
      ret (op :: ops)
  end.

(** A frame with a structured body and the content type [application/json],
    and a [JSON] that writes this body as [{}] and reads [{}] as this
    body. *)
Definition json_frame : Frame :=
  {| frame_command := Some "SEND";
     frame_headers := {[ "content-type" := HStr "application/json" ]};
     frame_body := BStruct 0 |}.

Definition emptyObjectJSON : JSON :=
  {| JSON_stringify := λ _, "{}";
     JSON_parse := λ b, match b with
                        | BString "{}" => inr (BStruct 0)
                        | _ => inl (SyntaxError "Unexpected token")
                        end |}.

(** A [lib/stomp-utils] for a run on one SEND frame of content type
    [application/json] whose body is the malformed text [{]: [parseFrame]
    yields that frame for every payload. *)
Definition malformed_json_frame : Frame :=
  {| frame_command := Some "SEND";
     frame_headers := {[ "destination" := HStr "/foo";
                         "content-type" := HStr "application/json" ]};
     frame_body := BString "{" |}.

Definition malformedFrameUtils : StompUtils :=
  {| genId := spec_genId;
     tokenizeDestination := spec_tokenizeDestination;
     parseFrame := λ _, malformed_json_frame |}.

(** B sends the euro sign to [/foo]: one character, three bytes in UTF-8,
    one UTF-16 code unit. *)
Definition send_euro : SendArgs :=
  {| args_dest := "/foo";
     args_frame := {| frame_command := Some "SEND";
                      frame_headers := {[ "destination" := HStr "/foo" ]};
                      frame_body := BString "€" |} |}.

(** A [JSON] for a run on the string body of the euro sign: [JSON.stringify]
    writes it between double quotes and [JSON.parse] is not reached. *)
Definition euroJSON : JSON :=
  {| JSON_stringify := λ _, String (ascii_of_nat 34) ("€" +:+ String (ascii_of_nat 34) "");
     JSON_parse := λ b, inr b |}.

(** B sends the euro sign to [/foo] as [application/json]. *)
Definition send_euro_json : SendArgs :=
  {| args_dest := "/foo";
     args_frame := {| frame_command := Some "SEND";
                      frame_headers := {[ "destination" := HStr "/foo";
                                          "content-type" := HStr "application/json" ]};
                      frame_body := BString "€" |} |}.



(* ===================================================================== *)
(** * Part II: properties                                                 *)
(* ===================================================================== *)

(** ** Destination matcher *)

Lemma checkLoop_shift st subTokens t tokens :
  checkLoop (st :: subTokens) (S t) tokens = checkLoop subTokens t tokens.
Proof.
  revert t. induction tokens as [|token rest IH]; intros t; simpl; [done|].
  destruct (subTokens !! t) as [st'|]; [|done].
  by rewrite IH.
Qed.

Lemma checkLoop_nil_tokens subTokens t : checkLoop subTokens t [] = true.
Proof. done. Qed.

(** A pattern token [**] at the running index ends the loop with a match. *)
Lemma checkLoop_double_star subTokens t tokens :
  subTokens !! t = Some "**" → checkLoop subTokens t tokens = true.
Proof. intros Hst. destruct tokens as [|token rest]; simpl; [done|]. by rewrite Hst, andb_false_r. Qed.

Lemma checkLoop_prefix_star pre tokens tail :
  Forall2 segment_match pre tokens →
  checkLoop (pre ++ ["**"]) 0 (tokens ++ tail) = true.
Proof.
  induction 1 as [|st token pre' tokens' Hseg _ IH]; simpl.
  - by apply checkLoop_double_star.
  - rewrite checkLoop_shift, IH.
    destruct Hseg as [->| ->].
    + rewrite String.eqb_refl. simpl. by destruct (token =? "**")%string.
    + simpl. by rewrite andb_false_r.
Qed.


(** The wildcard scenarios of the specification. *)
Example wildcard_scenario :
  @_checkSubMatchDest specUtils (pattern "/a.*.c") (publish_to "/a.b.c") = true
  ∧ @_checkSubMatchDest specUtils (pattern "/a.*.c") (publish_to "/a.b.d") = false
  ∧ @_checkSubMatchDest specUtils (pattern "/a.*.c") (publish_to "/a.b.c.d") = false
  ∧ @_checkSubMatchDest specUtils (pattern "/a.**") (publish_to "/a.x.y.z") = true.
Proof. repeat split; reflexivity. Qed.




(** C4: a pattern that ends in the token [**] matches every destination
    whose leading tokens are accepted, one by one, by the pattern's tokens
    before the [**], whatever follows them in the destination, nothing
    included. *)
Theorem C4_double_star_matches_any_tail `{StompUtils} (sub : Subscription) (args : SendArgs)
    (pre tokens tail : list string) :
  sub_tokens sub = pre ++ ["**"] →
  tokenizeDestination (args_dest args) = tokens ++ tail →
  Forall2 segment_match pre tokens →
  _checkSubMatchDest sub args = true.
Proof.
  intros Hsub Hdest Hpre. unfold _checkSubMatchDest.
  rewrite Hsub, Hdest. by apply checkLoop_prefix_star.
Qed.

(** The pattern [/a.*.**] matches [/a.x], which ends where the [**] stands,
    and [/a.x.y.z]. *)
Lemma C4_double_star_witness :
  @_checkSubMatchDest specUtils (pattern "/a.*.**") (publish_to "/a.x") = true
  ∧ @_checkSubMatchDest specUtils (pattern "/a.*.**") (publish_to "/a.x.y.z") = true.
Proof.
  split.
  - apply (@C4_double_star_matches_any_tail specUtils _ _ [""; "a"; "*"] [""; "a"; "x"] []);
      [reflexivity | reflexivity |].
    repeat (constructor; [first [by left | by right]|]). constructor.
  - apply (@C4_double_star_matches_any_tail specUtils _ _ [""; "a"; "*"] [""; "a"; "x"] ["y"; "z"]);
      [reflexivity | reflexivity |].
    repeat (constructor; [first [by left | by right]|]). constructor.
Defined.

(** ** Reasoning about methods *)

Section Preserves.
Context (R : relation StompServer) `{!PreOrder R}.

Lemma preserves_ret {A} (a : A) : preserves R (ret a).
Proof. intros srv. simpl. reflexivity. Qed.

Lemma preserves_throw {A} (e : Exn) : preserves R (@throw A e).
Proof. intros srv. simpl. reflexivity. Qed.

Lemma preserves_this : preserves R this.
Proof. intros srv. simpl. reflexivity. Qed.

Lemma preserves_bind {A B} (m : M A) (k : A → M B) :
  preserves R m → (∀ a, preserves R (k a)) → preserves R (bind m k).
Proof.
  intros Hm Hk srv. unfold bind. specialize (Hm srv).
  destruct (m srv) as [[a|e|] srv']; simpl in *; [|done..].
  etrans; [exact Hm | apply Hk].
Qed.

(** As [preserves_bind], when the continuation needs to know something of
    the value it is given. *)
Lemma preserves_bind_post {A B} (Q : A → Prop) (m : M A) (k : A → M B) :
  preserves R m →
  (∀ srv a, (m srv).1 = Normal a → Q a) →
  (∀ a, Q a → preserves R (k a)) →
  preserves R (bind m k).
Proof.
  intros Hm Hq Hk srv. unfold bind. specialize (Hm srv). specialize (Hq srv).
  destruct (m srv) as [[a|e|] srv']; simpl in *; [|done..].
  etrans; [exact Hm | by apply Hk, Hq].
Qed.

Lemma preserves_update (f : StompServer → StompServer) :
  (∀ srv, R srv (f srv)) → preserves R (update f).
Proof. intros Hf srv. apply Hf. Qed.

(** Whatever the interceptors do with [next], a relation kept by the
    terminal handler and by the call log is kept by the whole chain. *)
Lemma runScript_preserves (next : nat → M (Value * nat)) (s : Script) :
  (∀ iter, preserves R (next iter)) → ∀ iter, preserves R (runScript next s iter).
Proof.
  intros Hnext. induction s as [v|k IH]; intros iter; simpl.
  - apply preserves_ret.
  - apply preserves_bind; [apply Hnext|]. intros [r iter']. apply IH.
Qed.

Lemma callNext_preserves {A} `{Interceptors A} (command : string)
    (finalHandler : Socket → A → M Value) (handlers : list FnRef)
    (socket : Socket) (args : A) :
  preserves R (finalHandler socket args) →
  (∀ c, preserves R (called c)) →
  ∀ fuel iter, preserves R (callNext command finalHandler handlers socket args fuel iter).
Proof.
  intros Hfinal Hcalled. induction fuel as [|fuel IH]; intros iter; simpl.
  - intros srv. simpl. reflexivity.
  - destruct (handlers !! iter) as [h|].
    + apply preserves_bind; [apply Hcalled|]. intros _.
      apply runScript_preserves, IH.
    + apply preserves_bind; [apply Hcalled|]. intros _.
      apply preserves_bind; [apply Hfinal|]. intros r. apply preserves_ret.
Qed.

Lemma withMiddleware_preserves {A} `{Interceptors A} (command : string)
    (finalHandler : Socket → A → M Value) (socket : Socket) (args : A) :
  preserves R (finalHandler socket args) →
  (∀ c, preserves R (called c)) →
  preserves R (withMiddleware command finalHandler socket args).
Proof.
  intros Hfinal Hcalled. unfold withMiddleware.
  apply preserves_bind; [apply preserves_this|]. intros srv0.
  apply preserves_bind; [by apply callNext_preserves|].
  intros [r iter]. apply preserves_ret.
Qed.
End Preserves.

(** ** Self-suppression *)

Global Instance sends_only_to_others_preorder socket : PreOrder (sends_only_to_others socket).
Proof.
  split.
  - intros srv. split; [done|]. exists []. by rewrite app_nil_r.
  - intros s1 s2 s3 [Hr1 (e1 & Ho1 & Hf1)] [Hr2 (e2 & Ho2 & Hf2)].
    split; [congruence|]. exists (e1 ++ e2). split.
    + by rewrite Ho2, Ho1, app_assoc.
    + apply Forall_app. split; [done|]. by rewrite <- Hr1.
Qed.

(** The turn of an entry of the publishing session changes nothing,
    whatever its tokens. *)
Lemma sendToSubscription_own `{StompUtils} socket sub args :
  sub_sessionId sub = sock_sessionId socket →
  sendToSubscription socket sub args = ret args.
Proof. intros Heq. unfold sendToSubscription. by rewrite Heq, String.eqb_refl. Qed.

Lemma sendToSubscription_others `{StompUtils} socket sub args srv :
  sub ∈ subscribes srv →
  sends_only_to_others socket srv (sendToSubscription socket sub args srv).2.
Proof.
  intros Hin. unfold sendToSubscription.
  destruct (String.eqb_spec (sock_sessionId socket) (sub_sessionId sub)) as [Heq|Hne];
    [reflexivity|].
  destruct (_checkSubMatchDest sub args); [|reflexivity].
  destruct (sub_socket sub) as [sock|] eqn:Hsock; simpl.
  - split; [done|]. eexists. split; [done|]. constructor; [|done].
    exists sub. repeat split; try done. by apply lookup_insert_eq.
  - split; [done|]. eexists. split; [done|]. constructor; [|done].
    exists sub. repeat split; try done. by apply lookup_insert_eq.
Qed.

Lemma sendLoop_others `{StompUtils} socket subs args srv :
  subs ⊆ subscribes srv →
  sends_only_to_others socket srv (sendLoop socket subs args srv).2.
Proof.
  revert args srv. induction subs as [|sub rest IH]; intros args srv Hsub; simpl.
  - reflexivity.
  - unfold bind.
    pose proof (sendToSubscription_others socket sub args srv) as Hturn.
    destruct (sendToSubscription socket sub args srv) as [[args'|e|] srv']; simpl in *.
    + etrans; [apply Hturn; set_solver|].
      apply IH. destruct Hturn as [-> _]; set_solver.
    + apply Hturn. set_solver.
    + apply Hturn. set_solver.
Qed.

(** The loop over the registry is the loop over the entries of the other
    sessions. *)
Lemma sendLoop_skips_own `{StompUtils} socket subs args srv :
  sendLoop socket subs args srv = sendLoop socket (others socket subs) args srv.
Proof.
  revert args srv. unfold others.
  induction subs as [|sub rest IH]; intros args srv; [done|].
  rewrite filter_cons. case_decide as Hown; simpl.
  - unfold bind. destruct (sendToSubscription socket sub args srv) as [[args'|e|] srv'];
      [apply IH | done | done].
  - rewrite sendToSubscription_own by done.
    unfold bind, ret. apply IH.
Qed.

Lemma _sendToSubscriptions_others `{StompUtils} socket args :
  preserves (sends_only_to_others socket) (_sendToSubscriptions socket args).
Proof. intros srv. unfold _sendToSubscriptions, bind, this. simpl. by apply sendLoop_others. Qed.

Lemma emit_send_others socket dest headers body :
  preserves (sends_only_to_others socket) (emit "send" (PSend dest headers body)).
Proof.
  intros srv. split; [done|]. eexists. split; [done|]. by constructor.
Qed.

Lemma called_others socket c : preserves (sends_only_to_others socket) (called c).
Proof. intros srv. split; [done|]. exists []. by rewrite app_nil_r. Qed.

Lemma onSend_final_others `{StompUtils} `{JSON} socket args :
  preserves (sends_only_to_others socket) (onSend_final socket args).
Proof.
  unfold onSend_final.
  apply preserves_bind; [apply _|..].
  - destruct (frame_body (frameSerializer (args_frame args)));
      first [apply preserves_ret; apply _ | apply preserves_throw; apply _].
  - intros frame.
    apply preserves_bind; [apply _|apply emit_send_others|]. intros _.
    apply preserves_bind; [apply _|apply _sendToSubscriptions_others|]. intros _.
    apply preserves_ret. apply _.
Qed.

Lemma frameParser_preserves `{JSON} (R : relation StompServer) `{!PreOrder R} frame :
  preserves R (frameParser frame).
Proof.
  unfold frameParser.
  destruct (frame_body frame); try by apply preserves_ret.
  all: destruct (is_json frame); try by apply preserves_ret.
  all: destruct (JSON_parse _); first [by apply preserves_ret | by apply preserves_throw].
Qed.

Lemma foreign_delivery_not_to_session socket subs ev :
  registry_wf subs → foreign_delivery socket subs ev → not_to_session socket ev.
Proof.
  intros Hwf. unfold registry_wf in Hwf. rewrite Forall_forall in Hwf.
  destruct ev as [name [| | |body headers]|sock frame|line]; simpl; try done.
  - intros (sub & Hin & Hne & Hsock & _) Heq. specialize (Hwf sub Hin).
    rewrite Hsock in Hwf. simpl in *. congruence.
  - intros (sub & Hin & Hne & Hsock & _) Heq. specialize (Hwf sub Hin).
    rewrite Hsock in Hwf. simpl in *. congruence.
Qed.

(** C1: [_sendToSubscriptions] passes over every registry entry of the
    publishing session, whether or not its tokens match the destination, so
    a SEND delivers no MESSAGE to a subscription of the session it comes
    from: the turn of such an entry changes nothing, the loop is the loop
    over the entries of the other sessions, and every MESSAGE that
    [_sendToSubscriptions], [onSend] (behind any middleware) or the host's
    [send] produces is the delivery for an entry of another session; on a
    registry whose entries carry the session id of their socket, no frame of
    a SEND is written to a socket of the publishing session, and no MESSAGE
    event is raised for the host by the host's own SEND. *)
Theorem C1_no_delivery_to_publishing_session `{StompUtils} `{JSON} `{Interceptors SendArgs}
    (socket : Socket) (args : SendArgs) (srv : StompServer) :
  (∀ sub, sub_sessionId sub = sock_sessionId socket →
          sendToSubscription socket sub args srv = (Normal args, srv))
  ∧ _sendToSubscriptions socket args srv
    = sendLoop socket (others socket (subscribes srv)) args srv
  ∧ sends_only_to_others socket srv (_sendToSubscriptions socket args srv).2
  ∧ sends_only_to_others socket srv (onSend socket args srv).2
  ∧ (∀ topic headers body,
       sends_only_to_others selfSocket srv (send topic headers body srv).2)
  ∧ (registry_wf (subscribes srv) →
     adds_only (not_to_session socket) srv (onSend socket args srv).2).
Proof.
  assert (sends_only_to_others socket srv (onSend socket args srv).2) as HonSend.
  { revert srv. change (preserves (sends_only_to_others socket) (onSend socket args)).
    apply withMiddleware_preserves; [apply _|apply onSend_final_others|apply called_others]. }
  split; [|split; [|split; [|split; [|split]]]].
  6: { intros Hwf. destruct HonSend as [_ (evs & Hout & Hall)].
       exists evs. split; [done|]. eapply Forall_impl; [exact Hall|].
       intros ev. by apply foreign_delivery_not_to_session. }
  - intros sub Hown. by rewrite sendToSubscription_own.
  - unfold _sendToSubscriptions, bind, this. simpl. apply sendLoop_skips_own.
  - by apply _sendToSubscriptions_others.
  - exact HonSend.
  - intros topic headers body. clear HonSend. revert srv.
    change (preserves (sends_only_to_others selfSocket) (send topic headers body)).
    unfold send.
    apply preserves_bind; [apply _|apply frameParser_preserves; apply _|]. intros frame.
    apply preserves_bind; [apply _| |intros _; apply preserves_ret; apply _].
    unfold onSend.
    apply withMiddleware_preserves; [apply _|apply onSend_final_others|apply called_others].
Qed.

(** ** The MESSAGE frame of a SEND *)

Global Instance adds_only_preorder P : PreOrder (adds_only P).
Proof.
  split.
  - intros srv. exists []. by rewrite app_nil_r.
  - intros s1 s2 s3 (e1 & Ho1 & Hf1) (e2 & Ho2 & Hf2). exists (e1 ++ e2). split.
    + by rewrite Ho2, Ho1, app_assoc.
    + by apply Forall_app.
Qed.

Lemma adds_only_one P f ev srv :
  P ev → out (f srv) = out srv ++ [ev] → adds_only P srv (f srv).
Proof. intros Hev Hout. exists [ev]. split; [done|]. by constructor. Qed.

Lemma sendToSubscription_header `{StompUtils} key headers0 socket sub args :
  key ≠ "subscription" →
  frame_headers (args_frame args) !! key = headers0 !! key →
  preserves (adds_only (same_header key headers0)) (sendToSubscription socket sub args)
  ∧ ∀ srv args', (sendToSubscription socket sub args srv).1 = Normal args' →
      frame_headers (args_frame args') !! key = headers0 !! key.
Proof.
  intros Hkey Hargs. unfold sendToSubscription.
  destruct (sock_sessionId socket =? sub_sessionId sub)%string;
    [split; [apply preserves_ret; apply _ | by intros ?? [= <-]]|].
  destruct (_checkSubMatchDest sub args);
    [|split; [apply preserves_ret; apply _ | by intros ?? [= <-]]].
  split.
  - apply preserves_bind; [apply _| |intros _; apply preserves_ret; apply _].
    destruct (sub_socket sub) as [sock|]; intros srv;
      (eapply (adds_only_one _ (set_out _)); [|done]); simpl;
      by rewrite lookup_insert_ne.
  - intros srv args'. destruct (sub_socket sub); simpl; intros [= <-]; simpl;
      by rewrite lookup_insert_ne.
Qed.

Lemma sendLoop_header `{StompUtils} key headers0 socket subs args :
  key ≠ "subscription" →
  frame_headers (args_frame args) !! key = headers0 !! key →
  preserves (adds_only (same_header key headers0)) (sendLoop socket subs args).
Proof.
  intros Hkey. revert args. induction subs as [|sub rest IH]; intros args Hargs; simpl.
  - apply preserves_ret. apply _.
  - destruct (sendToSubscription_header key headers0 socket sub args Hkey Hargs) as [Hp Hq].
    by apply (preserves_bind_post _ (λ a, frame_headers (args_frame a) !! key = headers0 !! key)).
Qed.

Lemma frameSerializer_headers `{JSON} frame :
  frame_headers (frameSerializer frame) = frame_headers frame.
Proof.
  unfold frameSerializer. destruct (frame_body frame); try done; by destruct (is_json frame).
Qed.

(** Under every key but [subscription] and [content-length], what the
    subscribers get is what came in: the object [headers] with the defaults
    is never put on the frame. *)
Lemma onSend_final_header `{StompUtils} `{JSON} key socket args :
  key ≠ "subscription" → key ≠ "content-length" →
  preserves (adds_only (same_header key (frame_headers (args_frame args))))
    (onSend_final socket args).
Proof.
  intros Hk1 Hk2. unfold onSend_final.
  pose proof (frameSerializer_headers (args_frame args)) as Hser.
  apply (preserves_bind_post _
           (λ frame, frame_headers frame !! key = frame_headers (args_frame args) !! key)).
  - destruct (frame_body _); first [apply preserves_ret | apply preserves_throw]; apply _.
  - intros srv frame.
    destruct (frame_body _); simpl; intros [= <-]; simpl;
      rewrite ?lookup_insert_ne by done; by rewrite Hser.
  - intros frame Hframe.
    apply preserves_bind; [apply _| |intros _].
    { intros srv. eapply (adds_only_one _ (set_out _)); [|done]. exact I. }
    apply preserves_bind; [apply _| |intros _; apply preserves_ret; apply _].
    unfold _sendToSubscriptions.
    apply preserves_bind; [apply _|apply preserves_this; apply _|intros srv0].
    by apply sendLoop_header.
Qed.

(** C2: on the SEND of the scenario (session B sends [hello] to [/foo], to
    which session A subscribed with id [1]; the frame has no [message-id] and
    no [content-type]) the only frame handed to [sendFrame] has the headers
    [destination], [content-length] and [subscription], and neither of the
    defaults [message-id] and [content-type]. *)
Theorem C2_message_frame_lacks_defaults :
  frames_sent (out (@onSend specUtils plainJSON (noInterceptors _) sockB send_hello
                      srv_A_subscribed).2)
  = [ {| frame_command := Some "MESSAGE";
         frame_headers := {[ "destination" := HStr "/foo";
                             "content-length" := HNum 5;
                             "subscription" := HStr "1" ]};
         frame_body := BString "hello" |} ]
  ∧ Forall (λ frame, frame_headers frame !! "message-id" = None
                     ∧ frame_headers frame !! "content-type" = None)
      (frames_sent (out (@onSend specUtils plainJSON (noInterceptors _) sockB send_hello
                           srv_A_subscribed).2)).
Proof.
  split.
  - vm_compute. reflexivity.
  - repeat constructor.
Qed.

(** ** Subscribe *)

(** The entry [onSubscribe] builds for [socket] and [args]. *)
Lemma onSubscribe_final_run `{StompUtils} socket args srv :
  let sub := {| sub_id := sargs_id args;
                sub_sessionId := sock_sessionId socket;
                sub_topic := sargs_dest args;
                sub_tokens := tokenizeDestination (sargs_dest args);
                sub_socket := Some socket |} in
  onSubscribe_final socket args srv
  = (Normal (VBool true),
     set_out (λ o, o ++ [EvEmit "subscribe" (PSubscription sub);
                         EvDebug ["Server subscribe"; sargs_id args; sargs_dest args]])
       (set_subscribes (λ l, l ++ [sub]) srv)).
Proof.
  simpl. unfold onSubscribe_final, bind, update, emit, debug, ret, set_out, set_subscribes.
  simpl. by rewrite <- app_assoc.
Qed.

(** With no interceptor registered the chain is the terminal handler. *)
Lemma withMiddleware_no_handlers {A} `{Interceptors A} command
    (finalHandler : Socket → A → M Value) socket args srv :
  default [] (middleware srv !! toLowerCase command) = [] →
  withMiddleware command finalHandler socket args srv
  = bind (called (CallFinal command)) (λ _, finalHandler socket args) srv.
Proof.
  intros Hnone. unfold withMiddleware, bind at 1, this. rewrite Hnone. simpl.
  unfold bind. simpl.
  by destruct (finalHandler socket args _) as [[r| |] srv'].
Qed.

(** C5, as stated, fails: session A holds the subscription with id [1] and
    sends SUBSCRIBE with id [1] again; [onSubscribe] returns [true], writes
    no frame to any socket, and the registry then holds two entries with the
    session and id of the first. *)
Lemma C5_duplicate_subscription_accepted :
  (@onSubscribe specUtils (noInterceptors _) sockA subscribe_foo srv_A_subscribed).1
  = Normal (VBool true)
  ∧ frames_sent
      (out (@onSubscribe specUtils (noInterceptors _) sockA subscribe_foo srv_A_subscribed).2)
    = []
  ∧ length (subscribes srv_A_subscribed) = 1
  ∧ (sub_sessionId <$> subscribes srv_A_subscribed, sub_id <$> subscribes srv_A_subscribed)
    = (["A"], ["1"])
  ∧ (sub_sessionId <$>
       subscribes (@onSubscribe specUtils (noInterceptors _) sockA subscribe_foo
                     srv_A_subscribed).2,
     sub_id <$>
       subscribes (@onSubscribe specUtils (noInterceptors _) sockA subscribe_foo
                     srv_A_subscribed).2)
    = (["A"; "A"], ["1"; "1"]).
Proof. repeat split. Qed.

(** C5, amended: every SUBSCRIBE that reaches the terminal handler of
    [onSubscribe], also one whose session and id are those of a subscription
    already in the registry, is accepted: the handler returns [true], appends
    the new entry to the registry (which then holds one more entry with that
    session and id), emits [subscribe] and a debug line, and hands no frame,
    so no ERROR frame, to [sendFrame]; with no middleware registered for
    [subscribe] this is what [onSubscribe] does. *)
Theorem C5_subscribe_always_appends `{StompUtils} `{Interceptors SubscribeArgs}
    (socket : Socket) (args : SubscribeArgs) (srv : StompServer) :
  let sub := {| sub_id := sargs_id args;
                sub_sessionId := sock_sessionId socket;
                sub_topic := sargs_dest args;
                sub_tokens := tokenizeDestination (sargs_dest args);
                sub_socket := Some socket |} in
  let srv' := (onSubscribe_final socket args srv).2 in
  (onSubscribe_final socket args srv).1 = Normal (VBool true)
  ∧ subscribes srv' = subscribes srv ++ [sub]
  ∧ length (same_key sub (subscribes srv')) = S (length (same_key sub (subscribes srv)))
  ∧ out srv' = out srv ++ [EvEmit "subscribe" (PSubscription sub);
                           EvDebug ["Server subscribe"; sargs_id args; sargs_dest args]]
  ∧ frames_sent (out srv') = frames_sent (out srv)
  ∧ (default [] (middleware srv !! "subscribe") = [] →
     onSubscribe socket args srv
     = (Normal (VBool true), set_calls (λ l, l ++ [CallFinal "subscribe"]) srv')).
Proof.
  intros sub srv'. subst srv'. rewrite onSubscribe_final_run. fold sub. simpl.
  split; [done|]. split; [done|]. split; [|split; [done|split]].
  - unfold same_key. rewrite filter_app, length_app, filter_cons_True by done.
    simpl. lia.
  - unfold frames_sent. rewrite omap_app. simpl. by rewrite app_nil_r.
  - intros Hnone. unfold onSubscribe.
    rewrite withMiddleware_no_handlers by done.
    unfold bind, called, update. simpl. by rewrite onSubscribe_final_run.
Qed.

(** ** Teardown *)

(** The loop from index [i] keeps the entries before [i] and, of the rest,
    those of the other sessions. *)
Lemma closeLoop_spec sessionId i subs :
  closeLoop sessionId i subs
  = take i subs ++ filter (λ sub, sub_sessionId sub ≠ sessionId) (drop i subs).
Proof.
  funelim (closeLoop sessionId i subs).
  - (* i is past the end *)
    clear Heqcall. pose proof (lookup_ge_None_1 _ _ e) as Hlen.
    rewrite take_ge, drop_ge by lia. by rewrite app_nil_r.
  - (* the entry at i is the session's: it is spliced out, i stays *)
    clear Heqcall.
    match goal with IH : closeLoop _ _ _ = _ |- _ => rewrite IH end.
    apply String.eqb_eq in Heq. pose proof (lookup_lt_Some _ _ _ e) as Hlen.
    rewrite (drop_S subs sub i) by done.
    rewrite filter_cons_False by (intros Hne; by apply Hne).
    rewrite delete_take_drop.
    rewrite take_app_le, drop_app_ge by (rewrite length_take; lia).
    rewrite take_take, Nat.min_id.
    rewrite length_take, Nat.min_l by lia.
    by rewrite Nat.sub_diag.
  - (* the entry at i is another session's: it stays, i moves on *)
    clear Heqcall.
    match goal with IH : closeLoop _ _ _ = _ |- _ => rewrite IH end.
    apply String.eqb_neq in Heq.
    rewrite (take_S_r subs i sub), (drop_S subs sub i) by done.
    rewrite filter_cons_True by done. by rewrite <- app_assoc.
Qed.

Lemma closeLoop_others socket subs :
  closeLoop (sock_sessionId socket) 0 subs = others socket subs.
Proof. by rewrite closeLoop_spec. Qed.

Lemma others_idemp socket subs : others socket (others socket subs) = others socket subs.
Proof.
  unfold others. induction subs as [|sub rest IH]; [done|].
  rewrite filter_cons. case_decide; [|done].
  rewrite filter_cons_True by done. by rewrite IH.
Qed.


Lemma heartbeatOff_unarmed socket srv :
  heartbeatClock srv !! sock_ref socket = None → heartbeatOff socket srv = (Normal tt, srv).
Proof. intros Hnone. unfold heartbeatOff, bind, this. by rewrite Hnone. Qed.

Lemma heartbeatOff_armed socket srv t :
  heartbeatClock srv !! sock_ref socket = Some t →
  heartbeatOff socket srv
  = (Normal tt, set_heartbeatClock (delete (sock_ref socket)) (set_intervals (delete t) srv)).
Proof. intros Hsome. unfold heartbeatOff, bind, this. by rewrite Hsome. Qed.

Lemma afterConnectionClose_run socket srv :
  afterConnectionClose socket srv
  = heartbeatOff socket (set_subscribes (others socket) srv).
Proof.
  unfold afterConnectionClose, bind, update. simpl.
  unfold set_subscribes. by rewrite closeLoop_others.
Qed.

Lemma Forall_filter_keep {X} (P Q : X → Prop) `{!∀ x, Decision (Q x)} (l : list X) :
  Forall P l → Forall P (filter Q l).
Proof.
  rewrite !Forall_forall. intros Hall x Hin.
  apply list_elem_of_filter in Hin as [_ Hin]. by apply Hall.
Qed.

(** The registry of a new server is well formed, and the handlers that
    write the registry keep it so. *)
Lemma registry_wf_invariant `{StompUtils} socket :
  registry_wf (subscribes newStompServer)
  ∧ (∀ args srv, registry_wf (subscribes srv) →
       registry_wf (subscribes (onSubscribe_final socket args srv).2))
  ∧ (∀ topic hid random srv, registry_wf (subscribes srv) →
       registry_wf (subscribes (subscribe topic hid random srv).2))
  ∧ (∀ subId srv, registry_wf (subscribes srv) →
       registry_wf (subscribes (onUnsubscribe_final socket subId srv).2))
  ∧ (∀ srv, registry_wf (subscribes srv) →
       registry_wf (subscribes (afterConnectionClose socket srv).2)).
Proof.
  unfold registry_wf. split; [constructor|]. split; [|split; [|split]].
  - intros args srv Hwf. simpl. apply Forall_app. split; [done|]. by constructor.
  - intros topic hid random srv Hwf. simpl. apply Forall_app. split; [done|]. by constructor.
  - intros subId srv Hwf. unfold onUnsubscribe_final, bind, this.
    destruct (unsubscribeLoop socket subId 0 (subscribes srv)) as [[i sub]|]; simpl; [|done].
    by apply Forall_delete.
  - intros srv Hwf. rewrite afterConnectionClose_run.
    destruct (heartbeatClock srv !! sock_ref socket) as [t|] eqn:Hclock.
    + rewrite (heartbeatOff_armed _ _ t) by done. simpl. by apply Forall_filter_keep.
    + rewrite heartbeatOff_unarmed by done. simpl. by apply Forall_filter_keep.
Qed.

Lemma fresh_timer_unused srv : intervals srv !! fresh (dom (intervals srv)) = None.
Proof. apply not_elem_of_dom, is_fresh. Qed.

Lemma heartbeatOn_run socket interval serverSide now srv :
  heartbeatOn socket interval serverSide now srv
  = (Normal tt,
     set_heartbeatClock <[sock_ref socket := fresh (dom (intervals srv))]>
       (set_intervals
          <[fresh (dom (intervals srv)) :=
              {| timer_socket := socket; timer_interval := interval;
                 timer_serverSide := serverSide |}]>
          (if serverSide then srv
           else set_heartbeatTime <[sock_ref socket := (now + interval)%Z]> srv))).
Proof. unfold heartbeatOn, bind, this, update, ret. by destruct serverSide. Qed.





(** ** Middleware: the nesting bound *)

(** The iterator only moves forward. *)
Lemma runScript_mono (next : nat → M (Value * nat)) (s : Script) :
  (∀ j srv r j' srv', next j srv = (Normal (r, j'), srv') → j ≤ j') →
  ∀ j srv r j' srv', runScript next s j srv = (Normal (r, j'), srv') → j ≤ j'.
Proof.
  intros Hnext. induction s as [v|k IH]; intros j srv r j' srv'; simpl.
  - by intros [= _ <- _].
  - unfold bind. destruct (next j srv) as [[[r1 j1]| |] srv1] eqn:Hn; [|done..].
    intros Hrun. apply IH in Hrun. apply Hnext in Hn. lia.
Qed.

Lemma callNext_mono {A} `{Interceptors A} command (finalHandler : Socket → A → M Value)
    handlers socket args fuel :
  ∀ iter srv r iter' srv',
    callNext command finalHandler handlers socket args fuel iter srv
    = (Normal (r, iter'), srv') → iter ≤ iter'.
Proof.
  induction fuel as [|fuel IH]; intros iter srv r iter' srv'; simpl; [done|].
  destruct (handlers !! iter) as [h|]; unfold bind; simpl.
  - intros Hrun. apply runScript_mono in Hrun; [lia|exact IH].
  - destruct (finalHandler socket args _) as [[r1| |] srv1]; [|done..].
    by intros [= _ <- _].
Qed.

(** Two [next] functions that agree from [lo] on run a script alike from
    [lo] on. *)
Lemma runScript_ext (next1 next2 : nat → M (Value * nat)) (s : Script) (lo : nat) :
  (∀ j srv, lo ≤ j → next1 j srv = next2 j srv) →
  (∀ j srv r j' srv', next1 j srv = (Normal (r, j'), srv') → j ≤ j') →
  ∀ j srv, lo ≤ j → runScript next1 s j srv = runScript next2 s j srv.
Proof.
  intros Hext Hmono. induction s as [v|k IH]; intros j srv Hj; simpl; [done|].
  unfold bind. rewrite <- Hext by done.
  destruct (next1 j srv) as [[[r1 j1]| |] srv1] eqn:Hn; [|done..].
  apply IH. apply Hmono in Hn. lia.
Qed.

(** Any fuel above the number of handlers still ahead of the iterator gives
    the same run: the bound [S (length handlers)] of [withMiddleware] is never
    what ends a chain. *)
Lemma callNext_fuel {A} `{Interceptors A} command (finalHandler : Socket → A → M Value)
    handlers socket args fuel1 :
  ∀ fuel2 iter srv,
    length handlers - iter < fuel1 → length handlers - iter < fuel2 →
    callNext command finalHandler handlers socket args fuel1 iter srv
    = callNext command finalHandler handlers socket args fuel2 iter srv.
Proof.
  induction fuel1 as [|fuel1 IH]; intros fuel2 iter srv H1 H2; [lia|].
  destruct fuel2 as [|fuel2]; [lia|]. simpl.
  destruct (handlers !! iter) as [h|] eqn:Hh; [|done].
  apply lookup_lt_Some in Hh. unfold bind. simpl.
  apply (runScript_ext _ _ _ (S iter)); [|apply callNext_mono|lia].
  intros j srv' Hj. apply IH; lia.
Qed.

(** With that much fuel a chain ends as a call of JavaScript ends, with a
    value or an exception, provided the terminal handler does. *)
Lemma runScript_total (next : nat → M (Value * nat)) (s : Script) (lo : nat) :
  (∀ j srv, lo ≤ j → (next j srv).1 ≠ OutOfFuel) →
  (∀ j srv r j' srv', next j srv = (Normal (r, j'), srv') → j ≤ j') →
  ∀ j srv, lo ≤ j → (runScript next s j srv).1 ≠ OutOfFuel.
Proof.
  intros Htotal Hmono. induction s as [v|k IH]; intros j srv Hj; simpl; [done|].
  unfold bind. specialize (Htotal j srv Hj).
  destruct (next j srv) as [[[r1 j1]| |] srv1] eqn:Hn; simpl in *; [|done..].
  apply IH. apply Hmono in Hn. lia.
Qed.

Lemma callNext_total {A} `{Interceptors A} command (finalHandler : Socket → A → M Value)
    handlers socket args :
  (∀ srv, (finalHandler socket args srv).1 ≠ OutOfFuel) →
  ∀ fuel iter srv,
    length handlers - iter < fuel →
    (callNext command finalHandler handlers socket args fuel iter srv).1 ≠ OutOfFuel.
Proof.
  intros Hfinal. induction fuel as [|fuel IH]; intros iter srv Hfuel; [lia|]. simpl.
  destruct (handlers !! iter) as [h|] eqn:Hh; unfold bind; simpl.
  - apply lookup_lt_Some in Hh.
    apply (runScript_total _ _ (S iter)); [|apply callNext_mono|lia].
    intros j srv' Hj. apply IH. lia.
  - specialize (Hfinal (set_calls (λ l, l ++ [CallFinal command]) srv)).
    by destruct (finalHandler socket args _) as [[r| |] srv1].
Qed.

Lemma withMiddleware_total {A} `{Interceptors A} command (finalHandler : Socket → A → M Value)
    socket args srv :
  (∀ srv', (finalHandler socket args srv').1 ≠ OutOfFuel) →
  (withMiddleware command finalHandler socket args srv).1 ≠ OutOfFuel.
Proof.
  intros Hfinal. unfold withMiddleware, bind at 1, this. lazy beta iota.
  set (handlers := default [] (middleware srv !! toLowerCase command)).
  assert (length handlers - 0 < S (length handlers)) as Hfuel by lia.
  pose proof (callNext_total command finalHandler handlers socket args Hfinal
                (S (length handlers)) 0 srv Hfuel) as Htotal.
  unfold bind.
  by destruct (callNext command finalHandler handlers socket args (S (length handlers)) 0 srv)
    as [[[r j]| |] srv1].
Qed.

(** ** Middleware: the chain *)

Lemma drop_cons_lookup {X} (l : list X) (i : nat) (x : X) (rest : list X) :
  drop i l = x :: rest → l !! i = Some x ∧ drop (S i) l = rest.
Proof.
  intros Hdrop.
  assert (l !! i = Some x) as Hx.
  { rewrite <- (Nat.add_0_r i), <- lookup_drop, Hdrop. done. }
  split; [done|]. rewrite (drop_S _ _ _ Hx) in Hdrop. by injection Hdrop.
Qed.

Lemma drop_nil_lookup {X} (l : list X) (i : nat) : drop i l = [] → l !! i = None.
Proof.
  intros Hdrop. apply lookup_ge_None. apply (f_equal length) in Hdrop.
  rewrite length_drop in Hdrop. simpl in Hdrop. lia.
Qed.

Lemma set_calls_app l1 l2 srv :
  set_calls (λ l, l ++ l2) (set_calls (λ l, l ++ l1) srv) = set_calls (λ l, l ++ l1 ++ l2) srv.
Proof. unfold set_calls. simpl. by rewrite <- app_assoc. Qed.

Section Chain.
Context {A : Type} `{Interceptors A}.
Context (command : string) (finalHandler : Socket → A → M Value).
Context (handlers : list FnRef) (socket : Socket) (args : A).

(** From the position [iter]: the handlers ahead are [pre], each of which
    calls [next()] once, then [h], which does not.  The chain runs [pre] and
    [h] and nothing else. *)
Lemma callNext_stops (h : FnRef) (post : list FnRef) :
  returns_without_next (interceptor h socket args) →
  ∀ pre iter fuel srv,
    drop iter handlers = pre ++ h :: post →
    Forall (λ p, invokes_next_once (interceptor p socket args)) pre →
    length pre < fuel →
    ∃ v, callNext command finalHandler handlers socket args fuel iter srv
         = (Normal (v, S (iter + length pre)),
            set_calls (λ l, l ++ (CallInterceptor <$> pre ++ [h])) srv).
Proof.
  intros [v Hh]. induction pre as [|p pre IH]; intros iter fuel srv Hdrop Hpre Hfuel.
  - destruct fuel as [|fuel]; [simpl in Hfuel; lia|].
    apply drop_cons_lookup in Hdrop as [Hlook _]. simpl.
    rewrite Hlook, Hh. exists v. unfold bind. simpl. by rewrite Nat.add_0_r.
  - destruct fuel as [|fuel]; [simpl in Hfuel; lia|].
    apply drop_cons_lookup in Hdrop as [Hlook Hdrop]. simpl.
    rewrite Hlook. apply Forall_cons in Hpre as [(k & Hp & Hk) Hpre].
    rewrite Hp. unfold bind at 1. simpl. unfold bind at 1.
    destruct (IH (S iter) fuel (set_calls (λ l, l ++ [CallInterceptor p]) srv))
      as [v1 Hrun]; [done|done|simpl in Hfuel; lia|].
    rewrite Hrun. destruct (Hk v1) as [v2 ->]. exists v2. simpl.
    rewrite set_calls_app. unfold ret. repeat f_equal. lia.
Qed.

(** From the position [iter]: every handler ahead calls [next()] once.  The
    chain runs them in order, then the terminal handler, and its result
    passes back through them. *)
Lemma callNext_runs_all :
  ∀ rest iter fuel srv,
    drop iter handlers = rest →
    Forall (λ p, invokes_next_once (interceptor p socket args)) rest →
    length rest < fuel →
    ∃ g : Value → Value * nat,
      callNext command finalHandler handlers socket args fuel iter srv
      = (Completion_map g
           (finalHandler socket args
              (set_calls (λ l, l ++ (CallInterceptor <$> rest) ++ [CallFinal command]) srv)).1,
         (finalHandler socket args
            (set_calls (λ l, l ++ (CallInterceptor <$> rest) ++ [CallFinal command]) srv)).2).
Proof.
  induction rest as [|p rest IH]; intros iter fuel srv Hdrop Hrest Hfuel.
  - destruct fuel as [|fuel]; [simpl in Hfuel; lia|].
    pose proof (drop_nil_lookup _ _ Hdrop) as Hlook.
    simpl. rewrite Hlook. exists (λ r, (r, iter)). unfold bind. simpl.
    by destruct (finalHandler socket args _) as [[r| |] srv1].
  - destruct fuel as [|fuel]; [simpl in Hfuel; lia|].
    apply drop_cons_lookup in Hdrop as [Hlook Hdrop]. simpl.
    rewrite Hlook. apply Forall_cons in Hrest as [(k & Hp & Hk) Hrest].
    rewrite Hp. unfold bind at 1. simpl. unfold bind at 1.
    destruct (IH (S iter) fuel (set_calls (λ l, l ++ [CallInterceptor p]) srv))
      as [g' Hrun]; [done|done|simpl in Hfuel; lia|].
    rewrite set_calls_app in Hrun. rewrite Hrun. clear Hrun. simpl.
    exists (λ r, (match k (g' r).1 with Return v => v | CallNext _ => VUndefined end, (g' r).2)).
    destruct (finalHandler socket args _) as [[r| |] srv1]; simpl; [|done..].
    destruct (g' r) as [v1 j]. simpl. by destruct (Hk v1) as [v2 ->].
Qed.
End Chain.

(** C7, as stated, fails: with the functions 1 and 2 registered for
    [subscribe], where 1 calls [next()] twice and 2 returns without calling
    it, the second [next()] of 1 finds the shared iterator done and runs the
    terminal handler: the subscription is added although the interceptor 2
    did not invoke [next()]. *)
Lemma C7_stopped_chain_reaches_terminal_handler :
  middleware srv_two_interceptors !! "subscribe" = Some [1; 2]
  ∧ returns_without_next (@interceptor _ (nextTwice 1 _) 2 sockA subscribe_foo)
  ∧ calls (@onSubscribe specUtils (nextTwice 1 _) sockA subscribe_foo srv_two_interceptors).2
    = [CallInterceptor 1; CallInterceptor 2; CallFinal "subscribe"]
  ∧ sub_id <$>
      subscribes (@onSubscribe specUtils (nextTwice 1 _) sockA subscribe_foo
                    srv_two_interceptors).2
    = ["1"].
Proof.
  split; [reflexivity|]. split; [by eexists|]. split; reflexivity.
Qed.

(** C7, amended: for every command and the interceptors registered for it:
    if an interceptor returns without invoking [next()] and every interceptor
    registered before it invokes [next()] exactly once, the call returns
    normally having run these interceptors, in registration order, and
    nothing else: not the terminal handler, no later interceptor; no frame is
    handed to a socket and the registry and the timers are as they were (only
    the call log grew).  If every interceptor invokes [next()] exactly once,
    the interceptors run in registration order, then the terminal handler,
    whose completion is that of the call. *)
Theorem C7_interceptor_chain {A} `{Interceptors A} (command : string)
    (finalHandler : Socket → A → M Value) (socket : Socket) (args : A) (srv : StompServer) :
  (∀ pre h post,
     middleware srv !! toLowerCase command = Some (pre ++ h :: post) →
     Forall (λ p, invokes_next_once (interceptor p socket args)) pre →
     returns_without_next (interceptor h socket args) →
     ∃ v, withMiddleware command finalHandler socket args srv
          = (Normal v, set_calls (λ l, l ++ (CallInterceptor <$> pre ++ [h])) srv))
  ∧ (∀ handlers,
       default [] (middleware srv !! toLowerCase command) = handlers →
       Forall (λ p, invokes_next_once (interceptor p socket args)) handlers →
       ∃ g : Value → Value,
         withMiddleware command finalHandler socket args srv
         = (Completion_map g
              (finalHandler socket args
                 (set_calls (λ l, l ++ (CallInterceptor <$> handlers) ++ [CallFinal command])
                    srv)).1,
            (finalHandler socket args
               (set_calls (λ l, l ++ (CallInterceptor <$> handlers) ++ [CallFinal command])
                  srv)).2)).
Proof.
  split.
  - intros pre h post Hreg Hpre Hh.
    unfold withMiddleware, bind at 1, this. rewrite Hreg. cbn [from_option id].
    destruct (callNext_stops command finalHandler (pre ++ h :: post) socket args h post Hh
                pre 0 (S (length (pre ++ h :: post))) srv) as [v Hrun];
      [done|done|rewrite length_app; simpl; lia|].
    exists v. unfold bind. by rewrite Hrun.
  - intros handlers Hreg Hall.
    unfold withMiddleware, bind at 1, this. rewrite Hreg. cbn [from_option id].
    destruct (callNext_runs_all command finalHandler handlers socket args
                handlers 0 (S (length handlers)) srv) as [g Hrun]; [done|done|lia|].
    exists (λ r, (g r).1). unfold bind. rewrite Hrun.
    destruct (finalHandler socket args _) as [[r| |] srv1]; simpl; [|done..].
    by destruct (g r).
Qed.

(** With 1, 2 and 3 registered for [subscribe]: when 2 returns at once the
    SUBSCRIBE of A is dropped after 1 and 2 ran; when all three call
    [next()] the subscription is made after 1, 2 and 3 ran. *)
Lemma C7_interceptor_chain_witness :
  (∃ v, @onSubscribe specUtils (stopAt 2 _) sockA subscribe_foo srv_three_interceptors
        = (Normal v,
           set_calls (λ l, l ++ [CallInterceptor 1; CallInterceptor 2])
             srv_three_interceptors))
  ∧ calls (@onSubscribe specUtils (passers _) sockA subscribe_foo srv_three_interceptors).2
    = [CallInterceptor 1; CallInterceptor 2; CallInterceptor 3; CallFinal "subscribe"].
Proof.
  split.
  - apply (proj1 (@C7_interceptor_chain _ (stopAt 2 _) "subscribe"
                    (@onSubscribe_final specUtils) sockA subscribe_foo srv_three_interceptors)
             [1] 2 [3]).
    + reflexivity.
    + repeat constructor. eexists. split; [reflexivity|]. intros r. by eexists.
    + by eexists.
  - destruct (proj2 (@C7_interceptor_chain _ (passers _) "subscribe"
                       (@onSubscribe_final specUtils) sockA subscribe_foo
                       srv_three_interceptors) [1; 2; 3]) as [g Hrun].
    + reflexivity.
    + repeat constructor; (eexists; split; [reflexivity|]; intros r; by eexists).
    + unfold onSubscribe. rewrite Hrun. reflexivity.
Defined.

(** ** Middleware: registration and removal *)

Lemma indexOf_from_not_in handler i handlers :
  handler ∉ handlers → indexOf_from handler i handlers = (-1)%Z.
Proof.
  revert i. induction handlers as [|h rest IH]; intros i Hnotin; simpl; [done|].
  apply not_elem_of_cons in Hnotin as [Hne Hrest].
  rewrite decide_False by done. by apply IH.
Qed.

Lemma indexOf_from_first handler i pre post :
  handler ∉ pre →
  indexOf_from handler i (pre ++ handler :: post) = (i + Z.of_nat (length pre))%Z.
Proof.
  revert i. induction pre as [|h pre IH]; intros i Hnotin; simpl.
  - rewrite decide_True by done. lia.
  - apply not_elem_of_cons in Hnotin as [Hne Hrest].
    rewrite decide_False by done. rewrite IH by done. lia.
Qed.

(** [removeMiddleware] takes out the first occurrence of a registered
    handler. *)
Lemma removeMiddleware_first command handler pre post srv :
  middleware srv !! toLowerCase command = Some (pre ++ handler :: post) →
  handler ∉ pre →
  removeMiddleware command handler srv
  = (Normal tt, set_middleware <[toLowerCase command := pre ++ post]> srv).
Proof.
  intros Hreg Hnotin. unfold removeMiddleware, bind, this. rewrite Hreg.
  unfold indexOf. rewrite indexOf_from_first by done.
  assert ((0 + Z.of_nat (length pre) >=? 0)%Z = true) as -> by (apply Z.geb_le; lia).
  rewrite Z.add_0_l, Nat2Z.id. unfold update. repeat f_equal.
  rewrite delete_take_drop, take_app_length.
  replace (pre ++ handler :: post) with ((pre ++ [handler]) ++ post)
    by (by rewrite <- app_assoc).
  by rewrite drop_app_length' by (rewrite length_app; simpl; lia).
Qed.

(** A command none of whose registrations (by any spelling of its case)
    occurs in the history has no list in [this.middleware]. *)
Lemma registered_from_none history :
  ∀ srv key,
    middleware srv !! key = None →
    Forall (λ r, toLowerCase (reg_command r) ≠ key) history →
    middleware (registered_from srv history) !! key = None.
Proof.
  induction history as [|r history IH]; intros srv key Hnone Hall; simpl; [done|].
  apply Forall_cons in Hall as [Hr Hall]. apply IH; [|done].
  destruct r as [command handler|command handler]; simpl in *.
  - unfold addMiddleware, bind, this.
    destruct (middleware srv !! toLowerCase command); simpl;
      rewrite lookup_alter_ne by done; [done|by rewrite lookup_insert_ne].
  - by rewrite lookup_insert_ne.
Qed.

(** C10: [removeMiddleware] for a command that has no list in
    [this.middleware] (as on a server where no middleware was ever added or
    set for it) throws the [TypeError] of [undefined.indexOf] and changes
    nothing, while removing a handler that is not in the command's list
    returns normally and changes nothing. *)
Theorem C10_removeMiddleware_unregistered (command : string) (handler : FnRef)
    (srv : StompServer) :
  (middleware srv !! toLowerCase command = None →
   removeMiddleware command handler srv
   = (Throw (TypeError "Cannot read properties of undefined (reading 'indexOf')"), srv))
  ∧ (∀ history,
       Forall (λ r, toLowerCase (reg_command r) ≠ toLowerCase command) history →
       (removeMiddleware command handler (registered_from newStompServer history)).1
       = Throw (TypeError "Cannot read properties of undefined (reading 'indexOf')"))
  ∧ (∀ handlers,
       middleware srv !! toLowerCase command = Some handlers →
       handler ∉ handlers →
       removeMiddleware command handler srv = (Normal tt, srv)).
Proof.
  split; [|split].
  - intros Hnone. unfold removeMiddleware, bind, this. by rewrite Hnone.
  - intros history Hall.
    unfold removeMiddleware, bind, this.
    by rewrite (registered_from_none history newStompServer).
  - intros handlers Hreg Hnotin. unfold removeMiddleware, bind, this. rewrite Hreg.
    unfold indexOf. by rewrite indexOf_from_not_in.
Qed.

(** On the server with 1, 2 and 3 registered for [subscribe] and nothing
    for [send]: removing from [send] throws, removing the unregistered 7 from
    [subscribe] changes nothing. *)
Lemma C10_removeMiddleware_witness :
  removeMiddleware "send" 7 srv_three_interceptors
  = (Throw (TypeError "Cannot read properties of undefined (reading 'indexOf')"),
     srv_three_interceptors)
  ∧ removeMiddleware "SUBSCRIBE" 7 srv_three_interceptors = (Normal tt, srv_three_interceptors).
Proof.
  destruct (C10_removeMiddleware_unregistered "send" 7 srv_three_interceptors)
    as (Hthrow & _ & _).
  destruct (C10_removeMiddleware_unregistered "SUBSCRIBE" 7 srv_three_interceptors)
    as (_ & _ & Hnoop).
  split.
  - apply Hthrow. reflexivity.
  - apply (Hnoop [1; 2; 3]); [reflexivity|]. by apply (bool_decide_unpack _).
Defined.

(** ** Requests *)

Lemma parseRequest_normal_no_member `{StompUtils} `{JSON} `{FrameHandler} socket data srv :
  no_member (parseFrame data) →
  parseRequest_normal socket data srv
  = (Normal (VString "Command not found"), set_calls (λ l, l ++ [CallParseFrame data]) srv).
Proof.
  unfold no_member, parseRequest_normal, bind, called, update. simpl.
  destruct (frame_command (parseFrame data)) as [command|]; [|done].
  by intros ->.
Qed.

Lemma parseRequest_normal_member `{StompUtils} `{JSON} `{FrameHandler}
    socket data command cmdFunc srv :
  frame_command (parseFrame data) = Some command →
  frameHandler command = Some cmdFunc →
  parseRequest_normal socket data srv
  = (let* frame := frameParser (parseFrame data) in
     let* _ := called (CallCommand command) in
     cmdFunc socket frame) (set_calls (λ l, l ++ [CallParseFrame data]) srv).
Proof.
  intros Hcommand Hmember. unfold parseRequest_normal, bind at 1, called, update.
  by rewrite Hcommand, Hmember.
Qed.

Lemma parseRequest_unarmed `{StompUtils} `{JSON} `{FrameHandler} socket data now srv :
  heartbeatClock srv !! sock_ref socket = None →
  parseRequest socket data now srv = parseRequest_normal socket data srv.
Proof. intros Hnone. unfold parseRequest, bind at 1, this. by rewrite Hnone. Qed.

Lemma parseRequest_armed `{StompUtils} `{JSON} `{FrameHandler} socket data now srv t :
  heartbeatClock srv !! sock_ref socket = Some t →
  parseRequest socket data now srv
  = (if strict_equal_string data BYTES_LF
     then (Normal VUndefined,
           set_out (λ o, o ++ [EvDebug ["PONG"]])
             (set_heartbeatTime <[sock_ref socket := now]> srv))
     else parseRequest_normal socket data
            (set_heartbeatTime <[sock_ref socket := now]> srv)).
Proof.
  intros Hsome. unfold parseRequest, bind at 1, this. rewrite Hsome.
  unfold bind at 1, update. simpl. by destruct (strict_equal_string data BYTES_LF).
Qed.

Lemma strict_equal_string_true data s : strict_equal_string data s = true ↔ data = DString s.
Proof.
  destruct data as [s'|bytes]; simpl.
  - rewrite String.eqb_eq. split; [by intros ->|by intros [= ->]].
  - split; discriminate.
Qed.

Lemma strict_equal_string_false data s : data ≠ DString s → strict_equal_string data s = false.
Proof.
  intros Hne. apply not_true_is_false. by rewrite strict_equal_string_true.
Qed.

Lemma parseRequest_not_heartbeat `{StompUtils} `{JSON} `{FrameHandler} socket data now srv :
  heartbeatClock srv !! sock_ref socket = None ∨ data ≠ DString BYTES_LF →
  parseRequest socket data now srv = parseRequest_normal socket data (beat socket now srv).
Proof.
  intros Hdata. unfold beat.
  destruct (heartbeatClock srv !! sock_ref socket) as [t|] eqn:Hclock.
  - destruct Hdata as [|Hdata]; [done|].
    rewrite (parseRequest_armed _ _ _ _ t) by done.
    by rewrite strict_equal_string_false.
  - by rewrite parseRequest_unarmed.
Qed.

(** C8, as stated, fails: on a session whose heartbeat was never switched
    on, the payload LF is handed to the frame parser, the timestamp of the
    socket is not written, and the request ends as an unknown command.  On a
    session whose heartbeat is on, a binary payload that holds the single
    byte LF is handed to the frame parser too. *)
Lemma C8_unarmed_heartbeat_is_parsed :
  heartbeatClock srv_A_subscribed !! sock_ref sockA = None
  ∧ @parseRequest specUtils plainJSON specFrameHandler sockA (DString BYTES_LF) 5000
      srv_A_subscribed
    = (Normal (VString "Command not found"),
       set_calls (λ l, l ++ [CallParseFrame (DString BYTES_LF)]) srv_A_subscribed)
  ∧ heartbeatTime
      (@parseRequest specUtils plainJSON specFrameHandler sockA (DString BYTES_LF) 5000
         srv_A_subscribed).2 !! sock_ref sockA
    = None
  ∧ heartbeatClock srv_AB_heartbeat !! sock_ref sockA = Some 0
  ∧ calls (@parseRequest specUtils plainJSON specFrameHandler sockA (DBuffer [Byte.x0a]) 5000
             srv_AB_heartbeat).2
    = calls srv_AB_heartbeat ++ [CallParseFrame (DBuffer [Byte.x0a])].
Proof. split; [reflexivity|]. split; [reflexivity|]. split; [|split]; reflexivity. Qed.

(** C8, amended: on a session whose heartbeat timer is armed, the text
    payload of the single character LF sets the socket's timestamp to the
    clock reading and is neither handed to the frame parser nor dispatched
    (the call log is as it was; the only effect is the debug line PONG).
    Every other payload on such a session, the binary payload of the single
    byte LF among them, sets the timestamp and is then treated as normal
    data.  On a session whose heartbeat timer is not armed, [parseRequest]
    treats every payload, LF included, as normal data and writes no
    timestamp.  Normal data is handed to the frame parser, and when the
    frame parsed from it names no member of the frame handler the request
    ends as an unknown command with nothing changed but the call log. *)
Theorem C8_heartbeat_payload `{StompUtils} `{JSON} `{FrameHandler}
    (socket : Socket) (now : Z) (srv : StompServer) :
  (∀ t, heartbeatClock srv !! sock_ref socket = Some t →
        (parseRequest socket (DString BYTES_LF) now srv
         = (Normal VUndefined,
            set_out (λ o, o ++ [EvDebug ["PONG"]])
              (set_heartbeatTime <[sock_ref socket := now]> srv))
         ∧ heartbeatTime (parseRequest socket (DString BYTES_LF) now srv).2 !! sock_ref socket
           = Some now
         ∧ calls (parseRequest socket (DString BYTES_LF) now srv).2 = calls srv)
        ∧ (∀ data, data ≠ DString BYTES_LF →
             parseRequest socket data now srv
             = parseRequest_normal socket data
                 (set_heartbeatTime <[sock_ref socket := now]> srv))
        ∧ (no_member (parseFrame (DBuffer [Byte.x0a])) →
           parseRequest socket (DBuffer [Byte.x0a]) now srv
           = (Normal (VString "Command not found"),
              set_calls (λ l, l ++ [CallParseFrame (DBuffer [Byte.x0a])])
                (set_heartbeatTime <[sock_ref socket := now]> srv))))
  ∧ (heartbeatClock srv !! sock_ref socket = None →
     ∀ data,
       parseRequest socket data now srv
       = bind (called (CallParseFrame data))
           (λ _, match frame_command (parseFrame data) with
                 | None => ret (VString "Command not found")
                 | Some command =>
                     match frameHandler command with
                     | Some cmdFunc =>
                         bind (frameParser (parseFrame data))
                           (λ frame, bind (called (CallCommand command))
                                       (λ _, cmdFunc socket frame))
                     | None => ret (VString "Command not found")
                     end
                 end) srv)
  ∧ (heartbeatClock srv !! sock_ref socket = None →
     ∀ data,
       no_member (parseFrame data) →
       parseRequest socket data now srv
       = (Normal (VString "Command not found"),
          set_calls (λ l, l ++ [CallParseFrame data]) srv)).
Proof.
  split; [|split].
  - intros t Harmed. split; [|split].
    + rewrite (parseRequest_armed _ _ _ _ t) by done. simpl.
      split; [done|]. split; [|done].
      apply lookup_insert_eq.
    + intros data Hdata. rewrite (parseRequest_armed _ _ _ _ t) by done.
      by rewrite strict_equal_string_false.
    + intros Hnone. rewrite (parseRequest_armed _ _ _ _ t) by done. simpl.
      by rewrite parseRequest_normal_no_member.
  - intros Hnone data. by rewrite parseRequest_unarmed.
  - intros Hnone data Hno. rewrite parseRequest_unarmed by done.
    by apply parseRequest_normal_no_member.
Qed.

(** On the server where A's heartbeat is on, the text LF of A is a
    heartbeat, the binary LF of A sets the timestamp and goes to the parser,
    and the LF of B, whose heartbeat is off, goes to the parser. *)
Lemma C8_heartbeat_payload_witness :
  heartbeatTime
    (@parseRequest specUtils plainJSON specFrameHandler sockA (DString BYTES_LF) 5000
       srv_AB_heartbeat).2 !! sock_ref sockA = Some 5000%Z
  ∧ calls (@parseRequest specUtils plainJSON specFrameHandler sockA (DString BYTES_LF) 5000
             srv_AB_heartbeat).2 = calls srv_AB_heartbeat
  ∧ @parseRequest specUtils plainJSON specFrameHandler sockA (DBuffer [Byte.x0a]) 5000
      srv_AB_heartbeat
    = (Normal (VString "Command not found"),
       set_calls (λ l, l ++ [CallParseFrame (DBuffer [Byte.x0a])])
         (set_heartbeatTime <[sock_ref sockA := 5000%Z]> srv_AB_heartbeat))
  ∧ calls (@parseRequest specUtils plainJSON specFrameHandler sockB (DString BYTES_LF) 5000
             srv_AB_heartbeat).2
    = calls srv_AB_heartbeat ++ [CallParseFrame (DString BYTES_LF)].
Proof.
  destruct (@C8_heartbeat_payload specUtils plainJSON specFrameHandler sockA 5000%Z
              srv_AB_heartbeat) as [Harmed _].
  destruct (@C8_heartbeat_payload specUtils plainJSON specFrameHandler sockB 5000%Z
              srv_AB_heartbeat) as (_ & Hunarmed & _).
  destruct (Harmed 0 eq_refl) as ((_ & Htime & Hcalls) & _ & Hbinary).
  split; [exact Htime|]. split; [exact Hcalls|].
  split; [apply Hbinary; reflexivity|].
  rewrite Hunarmed by reflexivity. reflexivity.
Defined.

Lemma object_prototype_member_cases name f :
  object_prototype_member name = Some f →
  f = (λ _ _, ret (VString "[object Undefined]"))
  ∨ ∃ msg, f = (λ _ _, throw (TypeError msg)).
Proof.
  unfold object_prototype_member. repeat case_decide; repeat case_bool_decide;
    intros [= <-]; eauto.
Qed.

Lemma frameParser_state `{JSON} frame srv : (frameParser frame srv).2 = srv.
Proof.
  unfold frameParser. destruct (frame_body frame); try done.
  all: destruct (is_json frame); [|done].
  all: by destruct (JSON_parse _).
Qed.

(** C9, as stated, fails: for the BEGIN frame, whose command is not a
    supported one, [parseRequest] returns the string [Command not found] and
    the only change of the server is the call of the parser in the call log:
    no frame is handed to [sendFrame]. *)
Lemma C9_unsupported_command_gets_no_frame :
  frame_command (spec_parseFrame (DString begin_frame)) = Some "BEGIN"
  ∧ unsupported spec_commands (spec_parseFrame (DString begin_frame))
  ∧ @parseRequest specUtils plainJSON specFrameHandler sockA (DString begin_frame) 5000
      srv_A_subscribed
    = (Normal (VString "Command not found"),
       set_calls (λ l, l ++ [CallParseFrame (DString begin_frame)]) srv_A_subscribed)
  ∧ frames_sent
      (out (@parseRequest specUtils plainJSON specFrameHandler sockA (DString begin_frame)
              5000 srv_A_subscribed).2)
    = [].
Proof. split; [reflexivity|]. split; [reflexivity|]. split; reflexivity. Qed.

(** C9, amended.  For every received frame whose command names no member
    of the frame handler, own or inherited, [parseRequest] returns the
    string [Command not found] to its caller; it hands no frame, so no ERROR
    frame, to any socket, and changes nothing of the session but the
    timestamp of an armed heartbeat.  On a frame handler that is an ordinary
    object, a command that is not a supported one gets this answer when the
    object inherits no member of its name; when it inherits one, that member
    is called as a command function, after the frame parser.  For the
    members of [Object.prototype], that is for every such command but
    [constructor], the answer is [Command not found] exactly when there is
    no member of that name ([toString] answers [[object Undefined]], the
    others throw), and no frame is handed to a socket in any case. *)
Theorem C9_unsupported_command_returns_not_found `{StompUtils} `{JSON}
    (socket : Socket) (data : Data) (now : Z) (srv : StompServer) :
  heartbeatClock srv !! sock_ref socket = None ∨ data ≠ DString BYTES_LF →
  (∀ handler : FrameHandler,
     @no_member handler (parseFrame data) →
     @parseRequest _ _ handler socket data now srv
     = (Normal (VString "Command not found"),
        set_calls (λ l, l ++ [CallParseFrame data]) (beat socket now srv))
     ∧ out (@parseRequest _ _ handler socket data now srv).2 = out srv
     ∧ subscribes (@parseRequest _ _ handler socket data now srv).2 = subscribes srv
     ∧ intervals (@parseRequest _ _ handler socket data now srv).2 = intervals srv)
  ∧ (∀ commands constructor command,
       frame_command (parseFrame data) = Some command →
       unsupported commands (parseFrame data) →
       @parseRequest _ _ (objectFrameHandler commands constructor) socket data now srv
       = match inherited_member constructor command with
         | None =>
             (Normal (VString "Command not found"),
              set_calls (λ l, l ++ [CallParseFrame data]) (beat socket now srv))
         | Some cmdFunc =>
             (let* frame := frameParser (parseFrame data) in
              let* _ := called (CallCommand command) in
              cmdFunc socket frame)
               (set_calls (λ l, l ++ [CallParseFrame data]) (beat socket now srv))
         end
       ∧ (command ≠ "constructor" →
          ((@parseRequest _ _ (objectFrameHandler commands constructor)
              socket data now srv).1 = Normal (VString "Command not found")
           ↔ object_prototype_member command = None)
          ∧ out (@parseRequest _ _ (objectFrameHandler commands constructor)
                   socket data now srv).2 = out srv
          ∧ subscribes (@parseRequest _ _ (objectFrameHandler commands constructor)
                          socket data now srv).2 = subscribes srv
          ∧ intervals (@parseRequest _ _ (objectFrameHandler commands constructor)
                         socket data now srv).2 = intervals srv)).
Proof.
  intros Hdata. split.
  - intros handler Hno. rewrite parseRequest_not_heartbeat by done.
    rewrite parseRequest_normal_no_member by done. simpl.
    unfold beat. by destruct (heartbeatClock srv !! sock_ref socket).
  - intros commands constructor command Hcommand Hunsupported.
    rewrite parseRequest_not_heartbeat by done.
    unfold unsupported in Hunsupported. rewrite Hcommand in Hunsupported.
    assert (@frameHandler (objectFrameHandler commands constructor) command
            = inherited_member constructor command) as Hlookup.
    { unfold frameHandler, objectFrameHandler. by rewrite Hunsupported. }
    assert (out (beat socket now srv) = out srv
            ∧ subscribes (beat socket now srv) = subscribes srv
            ∧ intervals (beat socket now srv) = intervals srv) as (Hout & Hsubs & Hint).
    { unfold beat. by destruct (heartbeatClock srv !! sock_ref socket). }
    destruct (inherited_member constructor command) as [cmdFunc|] eqn:Hmember.
    + rewrite (parseRequest_normal_member _ _ command cmdFunc) by done.
      split; [done|]. intros Hconstructor.
      unfold inherited_member in Hmember. rewrite decide_False in Hmember by done.
      rewrite Hmember. unfold bind at 1 3 5 7.
      pose proof (frameParser_state (parseFrame data)
                    (set_calls (λ l, l ++ [CallParseFrame data]) (beat socket now srv)))
        as Hstate.
      destruct (frameParser (parseFrame data) _) as [[frame| |] srv1];
        simpl in Hstate; subst srv1; simpl; [|by split..].
      destruct (object_prototype_member_cases _ _ Hmember) as [->|[msg ->]];
        unfold bind, called, update, ret, throw; simpl; by split.
    + rewrite parseRequest_normal_no_member
        by (unfold no_member; by rewrite Hcommand, Hlookup).
      split; [done|]. intros Hconstructor.
      unfold inherited_member in Hmember. rewrite decide_False in Hmember by done.
      by rewrite Hmember.
Qed.

(** The BEGIN frame of A on the server where A's heartbeat is on: no effect
    leaves the server and the caller gets [Command not found].  A frame with
    the command [toString]: the caller gets [[object Undefined]]. *)
Lemma C9_unsupported_command_witness :
  out (@parseRequest specUtils plainJSON specFrameHandler sockA (DString begin_frame) 5000
         srv_AB_heartbeat).2 = out srv_AB_heartbeat
  ∧ (@parseRequest specUtils plainJSON specFrameHandler sockA (DString begin_frame) 5000
       srv_AB_heartbeat).1 = Normal (VString "Command not found")
  ∧ (@parseRequest specUtils plainJSON specFrameHandler sockA (DString "toString") 5000
       srv_AB_heartbeat).1 = Normal (VString "[object Undefined]").
Proof.
  destruct (@C9_unsupported_command_returns_not_found specUtils plainJSON
              sockA (DString begin_frame) 5000%Z srv_AB_heartbeat) as [Hnone _];
    [by right|].
  destruct (Hnone specFrameHandler) as (Hrun & Hout & _); [reflexivity|].
  destruct (@C9_unsupported_command_returns_not_found specUtils plainJSON
              sockA (DString "toString") 5000%Z srv_AB_heartbeat) as [_ Hobject];
    [by right|].
  destruct (Hobject spec_commands (λ _ _, ret VUndefined) "toString")
    as (Hinherited & _); [reflexivity|reflexivity|].
  split; [exact Hout|]. split; [by rewrite Hrun|].
  unfold specFrameHandler. by rewrite Hinherited.
Defined.

(** ** Scenarios of the specification *)

(** Basic pub/sub: with A and B subscribed to [/foo], the SEND of B reaches
    A's socket and not B's. *)
Example basic_pub_sub_scenario :
  frame_targets
    (out (@onSend specUtils plainJSON (noInterceptors _) sockB send_hello srv_AB_heartbeat).2)
  = [sockA].
Proof. reflexivity. Qed.

(** Self-suppression via the host: the host's own publication raises no
    MESSAGE event for the host's subscription; the publication of a network
    session does. *)
Example host_self_suppression_scenario :
  messages_emitted
    (out (@send specUtils plainJSON (noInterceptors _) "/t" None (BString "m")
            srv_host_subscribed).2)
  = []
  ∧ messages_emitted
      (out (@onSend specUtils plainJSON (noInterceptors _) sockA send_m srv_host_subscribed).2)
    = ["self_42"].
Proof. split; reflexivity. Qed.

(** Unsubscribe: after UNSUBSCRIBE with id [1] a SEND to [/foo] is handed
    to no socket; a second UNSUBSCRIBE finds nothing and returns [false]. *)
Example unsubscribe_scenario :
  frame_targets
    (out (@onSend specUtils plainJSON (noInterceptors _) sockB send_hello
            (@onUnsubscribe (noInterceptors _) sockA "1" srv_A_subscribed).2).2)
  = []
  ∧ (@onUnsubscribe (noInterceptors _) sockA "1"
       (@onUnsubscribe (noInterceptors _) sockA "1" srv_A_subscribed).2).1
    = Normal (VBool false).
Proof. split; reflexivity. Qed.

(* ===================================================================== *)
(** * Part III: further properties of the code                            *)
(* ===================================================================== *)

(** ** Destination matcher, further *)

Lemma checkLoop_own_tokens tokens : checkLoop tokens 0 tokens = true.
Proof.
  induction tokens as [|token rest IH]; simpl; [done|].
  rewrite String.eqb_refl, checkLoop_shift, IH. simpl.
  by destruct (token =? "**")%string.
Qed.

(** X1: a subscription matches every destination whose tokens are its own
    tokens, whatever they are, wildcards included: a subscriber of a topic
    gets what is published to that very topic. *)
Theorem X1_pattern_matches_own_topic `{StompUtils} (sub : Subscription) (args : SendArgs) :
  sub_tokens sub = tokenizeDestination (args_dest args) →
  _checkSubMatchDest sub args = true.
Proof.
  intros Hsame. unfold _checkSubMatchDest. rewrite <- Hsame. apply checkLoop_own_tokens.
Qed.

(** The subscription to [/queue.*.log] and a publication to the same
    text. *)
Lemma X1_pattern_matches_own_topic_witness :
  @_checkSubMatchDest specUtils (pattern "/queue.*.log") (publish_to "/queue.*.log") = true.
Proof.
  apply (@X1_pattern_matches_own_topic specUtils (pattern "/queue.*.log")
           (publish_to "/queue.*.log")).
  reflexivity.
Defined.

Lemma checkLoop_double_star_free subTokens tokens :
  double_star_free subTokens = true →
  checkLoop subTokens 0 tokens = true
  ↔ length tokens ≤ length subTokens
    ∧ Forall2 segment_match (take (length tokens) subTokens) tokens.
Proof.
  revert subTokens. induction tokens as [|token rest IH]; intros subTokens Hfree; simpl.
  - split; [intros _; split; [lia|constructor] | done].
  - destruct subTokens as [|st subTokens']; simpl.
    + split; [done|]. intros [Hlen _]. lia.
    + simpl in Hfree. apply andb_true_iff in Hfree as [Hst Hfree'].
      apply negb_true_iff in Hst. rewrite Hst, checkLoop_shift. simpl.
      rewrite andb_true_r. specialize (IH subTokens' Hfree').
      destruct (String.eqb_spec st token) as [->|Hne]; simpl.
      * rewrite IH. split.
        -- intros [Hlen Hall]. split; [lia|]. constructor; [by left|done].
        -- intros [Hlen Hall]. apply Forall2_cons in Hall as [_ Hall]. split; [lia|done].
      * destruct (String.eqb_spec st "*") as [->|Hne']; simpl.
        -- rewrite IH. split.
           ++ intros [Hlen Hall]. split; [lia|]. constructor; [by right|done].
           ++ intros [Hlen Hall]. apply Forall2_cons in Hall as [_ Hall]. split; [lia|done].
        -- split; [done|]. intros [_ Hall].
           apply Forall2_cons in Hall as [[?|?] _]; done.
Qed.

(** X2: for a subscription pattern that has no [**] token, a destination
    matches exactly when it has no more tokens than the pattern and each of
    its tokens is accepted by the pattern's token at the same position (the
    same text, or [*]); in particular a destination with more tokens than
    such a pattern never matches. *)
Theorem X2_match_without_double_star `{StompUtils} (sub : Subscription) (args : SendArgs) :
  double_star_free (sub_tokens sub) = true →
  _checkSubMatchDest sub args = true
  ↔ length (tokenizeDestination (args_dest args)) ≤ length (sub_tokens sub)
    ∧ Forall2 segment_match
        (take (length (tokenizeDestination (args_dest args))) (sub_tokens sub))
        (tokenizeDestination (args_dest args)).
Proof. intros Hfree. unfold _checkSubMatchDest. by apply checkLoop_double_star_free. Qed.

(** The pattern [/a.*.c]: [/a.b.c.d] has a token too many, and the match is
    refused. *)
Lemma X2_match_without_double_star_witness :
  double_star_free (sub_tokens (pattern "/a.*.c")) = true
  ∧ @_checkSubMatchDest specUtils (pattern "/a.*.c") (publish_to "/a.b.c.d") ≠ true.
Proof.
  split; [reflexivity|].
  intros Hmatch.
  apply (@X2_match_without_double_star specUtils (pattern "/a.*.c") (publish_to "/a.b.c.d"))
    in Hmatch as [Hlen _]; [|reflexivity].
  simpl in Hlen. lia.
Defined.

Lemma checkLoop_after_double_star pre post1 post2 tokens :
  checkLoop (pre ++ "**" :: post1) 0 tokens = checkLoop (pre ++ "**" :: post2) 0 tokens.
Proof.
  revert tokens. induction pre as [|st pre IH]; intros tokens.
  - by rewrite !checkLoop_double_star.
  - destruct tokens as [|token rest]; [done|]. simpl.
    by rewrite !checkLoop_shift, IH.
Qed.

(** X3: the tokens of a pattern behind its first [**] are never read: two
    subscriptions whose tokens agree up to and including a [**] match the
    same destinations, so [**] in the middle of a pattern acts as [**] at
    its end. *)
Theorem X3_tokens_after_double_star_ignored `{StompUtils} (sub1 sub2 : Subscription)
    (args : SendArgs) (pre post1 post2 : list string) :
  sub_tokens sub1 = pre ++ "**" :: post1 →
  sub_tokens sub2 = pre ++ "**" :: post2 →
  _checkSubMatchDest sub1 args = _checkSubMatchDest sub2 args.
Proof.
  intros H1 H2. unfold _checkSubMatchDest. rewrite H1, H2.
  apply checkLoop_after_double_star.
Qed.

(** [/a.**.c] matches [/a.x.y], which does not end in [c], as [/a.**]
    does. *)
Lemma X3_tokens_after_double_star_witness :
  @_checkSubMatchDest specUtils (pattern "/a.**.c") (publish_to "/a.x.y")
  = @_checkSubMatchDest specUtils (pattern "/a.**") (publish_to "/a.x.y")
  ∧ @_checkSubMatchDest specUtils (pattern "/a.**.c") (publish_to "/a.x.y") = true.
Proof.
  split; [|reflexivity].
  apply (@X3_tokens_after_double_star_ignored specUtils (pattern "/a.**.c") (pattern "/a.**")
           (publish_to "/a.x.y") [""; "a"] ["c"] []); reflexivity.
Defined.

(** ** Fan-out, further *)

Lemma set_out_nil srv : set_out (λ o, o ++ []) srv = srv.
Proof. destruct srv. unfold set_out. simpl. by rewrite app_nil_r. Qed.

Lemma set_out_app l1 l2 srv :
  set_out (λ o, o ++ l2) (set_out (λ o, o ++ l1) srv) = set_out (λ o, o ++ l1 ++ l2) srv.
Proof. unfold set_out. simpl. by rewrite <- app_assoc. Qed.

Lemma set_out_ext f g srv : f (out srv) = g (out srv) → set_out f srv = set_out g srv.
Proof. intros Hout. unfold set_out. by rewrite Hout. Qed.

Lemma same_send_refl args : same_send args args.
Proof. by repeat split. Qed.

Lemma same_send_message args args' sub :
  same_send args args' → same_send args (with_frame args' (message_for args' sub)).
Proof.
  intros (Hdest & Hbody & Hheaders). repeat split; simpl; [done..|].
  intros v. by rewrite insert_insert_eq.
Qed.

Lemma same_send_delivery args args' sub :
  same_send args args' → delivery args' sub = delivery args sub.
Proof.
  intros (Hdest & Hbody & Hheaders). unfold delivery, message_for.
  by rewrite Hbody, Hheaders.
Qed.

Lemma same_send_match `{StompUtils} args args' sub :
  same_send args args' → _checkSubMatchDest sub args' = _checkSubMatchDest sub args.
Proof. intros (Hdest & _). unfold _checkSubMatchDest. by rewrite Hdest. Qed.

(** One turn: a delivery when the entry is another session's and matches,
    nothing otherwise. *)
Lemma sendToSubscription_exact `{StompUtils} socket sub args srv :
  sendToSubscription socket sub args srv
  = if decide (sub_sessionId sub ≠ sock_sessionId socket ∧ _checkSubMatchDest sub args = true)
    then (Normal (with_frame args (message_for args sub)),
          set_out (λ o, o ++ [delivery args sub]) srv)
    else (Normal args, srv).
Proof.
  unfold sendToSubscription, delivery.
  destruct (String.eqb_spec (sock_sessionId socket) (sub_sessionId sub)) as [Heq|Hne].
  - rewrite decide_False; [done|]. intros [Hne _]. by apply Hne.
  - destruct (_checkSubMatchDest sub args) eqn:Hmatch.
    + rewrite decide_True by (split; [congruence|done]).
      by destruct (sub_socket sub).
    + rewrite decide_False; [done|]. by intros [_ ?].
Qed.

Lemma sendLoop_exact `{StompUtils} socket args0 subs :
  ∀ args srv,
    same_send args0 args →
    ∃ args',
      sendLoop socket subs args srv
      = (Normal args',
         set_out (λ o, o ++ (delivery args0 <$> matching socket args0 subs)) srv)
      ∧ same_send args0 args'.
Proof.
  unfold matching. induction subs as [|sub rest IH]; intros args srv Hsame; simpl.
  - exists args. by rewrite set_out_nil.
  - unfold bind. rewrite sendToSubscription_exact, filter_cons.
    rewrite (same_send_match args0 args sub Hsame).
    destruct (decide (sub_sessionId sub ≠ sock_sessionId socket
                      ∧ _checkSubMatchDest sub args0 = true)) as [Hyes|Hno].
    + destruct (IH (with_frame args (message_for args sub))
                  (set_out (λ o, o ++ [delivery args sub]) srv))
        as (args' & Hrun & Hsame'); [by apply same_send_message|].
      exists args'. split; [|done].
      rewrite Hrun, set_out_app, (same_send_delivery args0 args sub Hsame). done.
    + by apply IH.
Qed.

(** X4: [_sendToSubscriptions] hands the MESSAGE to exactly the registry
    entries of the other sessions whose tokens match the destination, once
    each and in the order of the registry; each gets the frame of the SEND
    with command MESSAGE and its own id as [subscription] header (written to
    its socket, or raised as the event named by its id when it has none);
    nothing else of the server changes and the call returns normally. *)
Theorem X4_fan_out_is_exact `{StompUtils} (socket : Socket) (args : SendArgs)
    (srv : StompServer) :
  ∃ args',
    _sendToSubscriptions socket args srv
    = (Normal args',
       set_out (λ o, o ++ (delivery args <$> matching socket args (subscribes srv))) srv)
    ∧ same_send args args'.
Proof.
  unfold _sendToSubscriptions, bind, this. simpl.
  apply sendLoop_exact, same_send_refl.
Qed.

Lemma matching_snoc `{StompUtils} socket args subs sub :
  sub_sessionId sub ≠ sock_sessionId socket →
  _checkSubMatchDest sub args = true →
  matching socket args (subs ++ [sub]) = matching socket args subs ++ [sub].
Proof.
  intros Hne Hmatch. unfold matching. rewrite filter_app. f_equal.
  by rewrite filter_cons_True.
Qed.

(** ** The SEND handler, further *)

Lemma matching_dest `{StompUtils} socket args args' subs :
  args_dest args' = args_dest args → matching socket args' subs = matching socket args subs.
Proof.
  intros Hdest. unfold matching. apply list_filter_iff. intros sub.
  unfold _checkSubMatchDest. by rewrite Hdest.
Qed.

(** What the terminal handler of [onSend] does, by the body of the
    serialized frame. *)
Lemma onSend_final_cases `{StompUtils} `{JSON} socket args srv :
  onSend_final socket args srv
  = match frame_body (frameSerializer (args_frame args)) with
    | BStruct _ => (Throw (ThrownString "Message body is not string"), srv)
    | _ =>
        let frame := with_content_length (frameSerializer (args_frame args)) in
        (Normal (VBool true),
         set_out
           (λ o, o ++ EvEmit "send" (PSend (args_dest args) (frame_headers frame)
                                       (frame_body (args_frame args)))
                   :: (delivery (with_frame args frame)
                         <$> matching socket args (subscribes srv)))
           srv)
    end.
Proof.
  unfold onSend_final, with_content_length.
  destruct (frame_body (frameSerializer (args_frame args))) as [|s|bytes|handle] eqn:Hbody;
    unfold bind at 1; simpl; [| | |done].
  all: unfold bind at 1, emit, update; simpl.
  all: unfold _sendToSubscriptions, bind, this; simpl.
  all: match goal with
       | |- context [sendLoop ?sk ?subs ?a ?s] =>
           destruct (sendLoop_exact sk a subs a s (same_send_refl a)) as (args' & Hrun & _);
           rewrite Hrun
       end.
  all: rewrite set_out_app; simpl; unfold with_frame; simpl.
  all: by erewrite matching_dest.
Qed.

Lemma frameSerializer_not_json `{JSON} frame :
  is_json frame = false → frameSerializer frame = frame.
Proof. intros Hjson. unfold frameSerializer. rewrite Hjson. by destruct (frame_body frame). Qed.

(** X5: once a session has subscribed to a destination with an id, a SEND
    to that very destination from any other session, with no middleware
    registered for [send], goes one of two ways.  When the body left by
    [frameSerializer] is a structured value (one sent under another content
    type than [application/json]) the handler throws [Message body is not
    string] and nothing is delivered.  Otherwise it returns [true] and hands
    the subscriber's socket, as the last frame of the fan-out, the MESSAGE
    with that id as [subscription] header, the serialized body and, for a
    body that is not [undefined], its [content-length]. *)
Theorem X5_subscribe_then_send_delivers `{StompUtils} `{JSON} `{Interceptors SendArgs}
    (subscriber publisher : Socket) (sargs : SubscribeArgs) (args : SendArgs)
    (srv : StompServer) :
  sock_sessionId subscriber ≠ sock_sessionId publisher →
  args_dest args = sargs_dest sargs →
  default [] (middleware srv !! "send") = [] →
  match frame_body (frameSerializer (args_frame args)) with
  | BStruct _ =>
      onSend publisher args (onSubscribe_final subscriber sargs srv).2
      = (Throw (ThrownString "Message body is not string"),
         set_calls (λ l, l ++ [CallFinal "send"]) (onSubscribe_final subscriber sargs srv).2)
  | body =>
      ∃ evs,
        onSend publisher args (onSubscribe_final subscriber sargs srv).2
        = (Normal (VBool true),
           set_out
             (λ o, o ++ evs ++
                   [EvSendFrame subscriber
                      {| frame_command := Some "MESSAGE";
                         frame_headers :=
                           <["subscription" := HStr (sargs_id sargs)]>
                             (frame_headers
                                (with_content_length (frameSerializer (args_frame args))));
                         frame_body := body |}])
             (set_calls (λ l, l ++ [CallFinal "send"])
                (onSubscribe_final subscriber sargs srv).2))
  end.
Proof.
  intros Hne Hdest Hnone.
  assert (onSend publisher args (onSubscribe_final subscriber sargs srv).2
          = onSend_final publisher args
              (set_calls (λ l, l ++ [CallFinal "send"])
                 (onSubscribe_final subscriber sargs srv).2)) as ->
    by (unfold onSend; by rewrite withMiddleware_no_handlers).
  rewrite onSend_final_cases.
  assert (matching publisher args
            (subscribes (set_calls (λ l, l ++ [CallFinal "send"])
                           (onSubscribe_final subscriber sargs srv).2))
          = matching publisher args (subscribes srv) ++ [new_subscription subscriber sargs])
    as ->.
  { simpl. apply matching_snoc; [done|].
    unfold _checkSubMatchDest. simpl. rewrite Hdest. apply checkLoop_own_tokens. }
  assert (frame_body (with_content_length (frameSerializer (args_frame args)))
          = frame_body (frameSerializer (args_frame args))) as Hsame.
  { unfold with_content_length.
    by destruct (frame_body (frameSerializer (args_frame args))) eqn:Hbody. }
  destruct (frame_body (frameSerializer (args_frame args))) as [|s|bytes|handle] eqn:Hbody;
    [| | |done].
  all: eexists; cbn zeta; f_equal; apply set_out_ext; rewrite fmap_app.
  all: rewrite (app_comm_cons _ _ (EvEmit _ _)); f_equal; f_equal.
  all: unfold delivery, message_for, new_subscription, with_frame; cbn [list_fmap fmap].
  all: cbn [sub_socket sub_id args_frame]; by rewrite Hsame.
Qed.

(** A subscribes to [/foo] with id [1] on a new server; the SEND of B to
    [/foo] ends with the MESSAGE for A's socket, with content-length 5.  The
    SEND of a structured value as [text/plain] throws. *)
Lemma X5_subscribe_then_send_witness :
  (∃ evs,
     @onSend specUtils plainJSON (noInterceptors _) sockB send_hello
       (@onSubscribe_final specUtils sockA subscribe_foo newStompServer).2
     = (Normal (VBool true),
        set_out
          (λ o, o ++ evs ++
                [EvSendFrame sockA
                   {| frame_command := Some "MESSAGE";
                      frame_headers := {[ "destination" := HStr "/foo";
                                          "content-length" := HNum 5;
                                          "subscription" := HStr "1" ]};
                      frame_body := BString "hello" |}])
          (set_calls (λ l, l ++ [CallFinal "send"])
             (@onSubscribe_final specUtils sockA subscribe_foo newStompServer).2)))
  ∧ @onSend specUtils plainJSON (noInterceptors _) sockB
      (with_frame send_hello (with_body (args_frame send_hello) (BStruct 0)))
      (@onSubscribe_final specUtils sockA subscribe_foo newStompServer).2
    = (Throw (ThrownString "Message body is not string"),
       set_calls (λ l, l ++ [CallFinal "send"])
         (@onSubscribe_final specUtils sockA subscribe_foo newStompServer).2).
Proof.
  split.
  - apply (@X5_subscribe_then_send_delivers specUtils plainJSON (noInterceptors _) sockA sockB
             subscribe_foo send_hello newStompServer); [discriminate|reflexivity|reflexivity].
  - apply (@X5_subscribe_then_send_delivers specUtils plainJSON (noInterceptors _) sockA sockB
             subscribe_foo (with_frame send_hello (with_body (args_frame send_hello) (BStruct 0)))
             newStompServer); [discriminate|reflexivity|reflexivity].
Defined.

(** X6: the two ways the host's [send] throws.  A body under content-type
    [application/json] that [JSON.parse] rejects throws the parser's
    exception before anything else happens; a structured body under another
    content-type reaches the terminal handler (with no middleware registered
    for [send]) and throws [Message body is not string] there.  In both
    cases no event is emitted and no frame is handed to a socket. *)
Theorem X6_send_throws_without_effect `{StompUtils} `{JSON} `{Interceptors SendArgs}
    (topic : string) (headers : gmap string HVal) (srv : StompServer) :
  (∀ body e,
     body ≠ BUndefined →
     headers !! "content-type" = Some (HStr "application/json") →
     JSON_parse body = inl e →
     send topic (Some headers) body srv = (Throw e, srv))
  ∧ (∀ handle,
       headers !! "content-type" ≠ Some (HStr "application/json") →
       default [] (middleware srv !! "send") = [] →
       send topic (Some headers) (BStruct handle) srv
       = (Throw (ThrownString "Message body is not string"),
          set_calls (λ l, l ++ [CallFinal "send"]) srv)).
Proof.
  split.
  - intros body e Hbody Hjson Hparse. unfold send, bind at 1, frameParser.
    destruct body; [done|..]; simpl.
    all: unfold is_json; simpl; rewrite bool_decide_eq_true_2 by done.
    all: by rewrite Hparse.
  - intros handle Hjson Hnone. unfold send, bind at 1, frameParser. simpl.
    unfold is_json. simpl. rewrite bool_decide_eq_false_2 by done. simpl.
    unfold bind at 1, onSend. rewrite withMiddleware_no_handlers by done.
    unfold bind at 1, called, update. simpl.
    rewrite onSend_final_cases. simpl.
    rewrite frameSerializer_not_json; [done|].
    unfold is_json. simpl. by rewrite bool_decide_eq_false_2.
Qed.

(** The host sends the malformed JSON text [{], and a structured value as
    [text/plain], to the server on which A subscribed. *)
Lemma X6_send_throws_witness :
  @send specUtils brokenTextJSON (noInterceptors _) "/foo"
    (Some {[ "content-type" := HStr "application/json" ]}) (BString "{") srv_A_subscribed
  = (Throw (SyntaxError "Unexpected end of JSON input"), srv_A_subscribed)
  ∧ @send specUtils plainJSON (noInterceptors _) "/foo"
      (Some {[ "content-type" := HStr "text/plain" ]}) (BStruct 0) srv_A_subscribed
    = (Throw (ThrownString "Message body is not string"),
       set_calls (λ l, l ++ [CallFinal "send"]) srv_A_subscribed).
Proof.
  split.
  - apply (proj1 (@X6_send_throws_without_effect specUtils brokenTextJSON (noInterceptors _)
                    "/foo" {[ "content-type" := HStr "application/json" ]} srv_A_subscribed));
      [discriminate|reflexivity|reflexivity].
  - apply (proj2 (@X6_send_throws_without_effect specUtils plainJSON (noInterceptors _)
                    "/foo" {[ "content-type" := HStr "text/plain" ]} srv_A_subscribed));
      [discriminate|reflexivity].
Defined.

(** X7: for a SEND whose body is a string and whose content-type is not
    [application/json], the terminal handler of [onSend] returns [true],
    emits one [send] event and hands every matching subscription of another
    session the same body, with [content-length] set to the [length] of the
    body, in UTF-16 code units, in place of whatever the sender gave; nothing
    else changes. *)
Theorem X7_text_body_is_passed_on `{StompUtils} `{JSON} (socket : Socket) (args : SendArgs)
    (srv : StompServer) (s : string) :
  frame_body (args_frame args) = BString s →
  is_json (args_frame args) = false →
  onSend_final socket args srv
  = (Normal (VBool true),
     set_out
       (λ o, o ++ EvEmit "send"
                    (PSend (args_dest args)
                       (<["content-length" := HNum (Z.of_nat (js_length s))]>
                          (frame_headers (args_frame args)))
                       (BString s))
               :: (delivery
                     (with_frame args
                        (with_header (args_frame args) "content-length"
                           (HNum (Z.of_nat (js_length s)))))
                     <$> matching socket args (subscribes srv)))
       srv).
Proof.
  intros Hbody Hjson. rewrite onSend_final_cases.
  rewrite frameSerializer_not_json by done.
  unfold with_content_length. by rewrite Hbody.
Qed.

(** B sends [hello] to [/foo] with a content-length of 99: A gets [hello]
    with content-length 5.  B sends the euro sign: A gets it with
    content-length 1. *)
Lemma X7_text_body_witness :
  frames_sent
    (out (@onSend_final specUtils plainJSON sockB
            (with_frame send_hello
               (with_header (args_frame send_hello) "content-length" (HNum 99)))
            srv_A_subscribed).2)
  = [ {| frame_command := Some "MESSAGE";
         frame_headers := {[ "destination" := HStr "/foo"; "content-length" := HNum 5;
                             "subscription" := HStr "1" ]};
         frame_body := BString "hello" |} ]
  ∧ frames_sent (out (@onSend_final specUtils plainJSON sockB send_euro srv_A_subscribed).2)
    = [ {| frame_command := Some "MESSAGE";
           frame_headers := {[ "destination" := HStr "/foo"; "content-length" := HNum 1;
                               "subscription" := HStr "1" ]};
           frame_body := BString "€" |} ].
Proof.
  split.
  - rewrite (@X7_text_body_is_passed_on specUtils plainJSON sockB _ srv_A_subscribed "hello");
      reflexivity.
  - rewrite (@X7_text_body_is_passed_on specUtils plainJSON sockB send_euro srv_A_subscribed
               "€"); reflexivity.
Defined.

Lemma frameSerializer_json `{JSON} frame :
  is_json frame = true →
  frame_body frame ≠ BUndefined →
  (∀ bytes, frame_body frame ≠ BBuffer bytes) →
  frameSerializer frame = with_body frame (BString (JSON_stringify (frame_body frame))).
Proof.
  intros Hjson Hdef Hbuf. unfold frameSerializer. rewrite Hjson.
  destruct (frame_body frame) as [| |bytes|]; try done. by destruct (Hbuf bytes).
Qed.

(** X8: for a SEND under content-type [application/json] whose body is a
    string or a structured value, the subscribers get the text
    [JSON.stringify(body)] with [content-length] set to the [length] of that
    text, in UTF-16 code units, while the [send] event for the host carries
    the body as it came, before serialization. *)
Theorem X8_json_body_is_stringified `{StompUtils} `{JSON} (socket : Socket) (args : SendArgs)
    (srv : StompServer) :
  is_json (args_frame args) = true →
  frame_body (args_frame args) ≠ BUndefined →
  (∀ bytes, frame_body (args_frame args) ≠ BBuffer bytes) →
  let text := JSON_stringify (frame_body (args_frame args)) in
  let frame :=
    with_header (with_body (args_frame args) (BString text)) "content-length"
      (HNum (Z.of_nat (js_length text))) in
  onSend_final socket args srv
  = (Normal (VBool true),
     set_out
       (λ o, o ++ EvEmit "send"
                    (PSend (args_dest args) (frame_headers frame)
                       (frame_body (args_frame args)))
               :: (delivery (with_frame args frame)
                     <$> matching socket args (subscribes srv)))
       srv).
Proof.
  intros Hjson Hdef Hbuf text frame. rewrite onSend_final_cases.
  by rewrite frameSerializer_json.
Qed.

(** B sends a structured value as JSON: A's socket gets the text (here
    [null], four characters), the host's [send] listeners get the value.  B
    sends the euro sign as JSON: A's socket gets it between double quotes
    with content-length 3, the host's listeners get the euro sign. *)
Lemma X8_json_body_witness :
  (frame_body <$>
     frames_sent (out (@onSend_final specUtils plainJSON sockB send_json srv_A_subscribed).2),
   (λ frame, frame_headers frame !! "content-length") <$>
     frames_sent (out (@onSend_final specUtils plainJSON sockB send_json srv_A_subscribed).2),
   send_event_bodies
     (out (@onSend_final specUtils plainJSON sockB send_json srv_A_subscribed).2))
  = ([BString "null"], [Some (HNum 4)], [BStruct 7])
  ∧ ((λ frame, frame_headers frame !! "content-length") <$>
       frames_sent
         (out (@onSend_final specUtils euroJSON sockB send_euro_json srv_A_subscribed).2),
     send_event_bodies
       (out (@onSend_final specUtils euroJSON sockB send_euro_json srv_A_subscribed).2))
    = ([Some (HNum 3)], [BString "€"]).
Proof.
  split.
  - rewrite (@X8_json_body_is_stringified specUtils plainJSON sockB send_json
               srv_A_subscribed); [reflexivity|reflexivity|discriminate|discriminate].
  - rewrite (@X8_json_body_is_stringified specUtils euroJSON sockB send_euro_json
               srv_A_subscribed); [reflexivity|reflexivity|discriminate|discriminate].
Defined.

(** X9: for a SEND without a body the terminal handler of [onSend] writes
    no [content-length]: the [send] event and the subscribers get the
    headers as they came (the subscribers with their [subscription] added)
    and no body. *)
Theorem X9_no_body_no_content_length `{StompUtils} `{JSON} (socket : Socket)
    (args : SendArgs) (srv : StompServer) :
  frame_body (args_frame args) = BUndefined →
  onSend_final socket args srv
  = (Normal (VBool true),
     set_out
       (λ o, o ++ EvEmit "send"
                    (PSend (args_dest args) (frame_headers (args_frame args)) BUndefined)
               :: (delivery args <$> matching socket args (subscribes srv)))
       srv).
Proof.
  intros Hbody. rewrite onSend_final_cases.
  assert (frameSerializer (args_frame args) = args_frame args) as ->
    by (unfold frameSerializer; by rewrite Hbody).
  unfold with_content_length. rewrite Hbody. simpl.
  by destruct args.
Qed.

(** B sends a frame without a body: A's frame has a [subscription] and no
    [content-length]. *)
Lemma X9_no_body_witness :
  frames_sent (out (@onSend_final specUtils plainJSON sockB send_empty srv_A_subscribed).2)
  = [ {| frame_command := Some "MESSAGE";
         frame_headers := {[ "destination" := HStr "/foo"; "subscription" := HStr "1" ]};
         frame_body := BUndefined |} ].
Proof.
  rewrite (@X9_no_body_no_content_length specUtils plainJSON sockB send_empty
             srv_A_subscribed); reflexivity.
Defined.

(** ** Unsubscribe *)

Lemma unsubscribeLoop_none socket subId i subs :
  Forall (λ sub, ¬ has_key socket subId sub) subs →
  unsubscribeLoop socket subId i subs = None.
Proof.
  revert i. induction subs as [|sub rest IH]; intros i Hall; simpl; [done|].
  apply Forall_cons in Hall as [Hsub Hrest].
  destruct (String.eqb_spec (sub_id sub) subId) as [Hid|Hid]; simpl; [|by apply IH].
  destruct (String.eqb_spec (sub_sessionId sub) (sock_sessionId socket)) as [Hs|Hs];
    [|by apply IH].
  by destruct Hsub.
Qed.

Lemma unsubscribeLoop_first socket subId i pre sub post :
  Forall (λ sub, ¬ has_key socket subId sub) pre →
  has_key socket subId sub →
  unsubscribeLoop socket subId i (pre ++ sub :: post) = Some (i + length pre, sub).
Proof.
  revert i. induction pre as [|s pre IH]; intros i Hall [Hid Hs]; simpl.
  - rewrite Hid, Hs, !String.eqb_refl. simpl. by rewrite Nat.add_0_r.
  - apply Forall_cons in Hall as [Hsub Hrest].
    rewrite IH by done. rewrite Nat.add_succ_r.
    destruct (String.eqb_spec (sub_id s) subId) as [Hid'|Hid']; simpl; [|done].
    destruct (String.eqb_spec (sub_sessionId s) (sock_sessionId socket)) as [Hs'|Hs'];
      [|done].
    by destruct Hsub.
Qed.

(** The terminal handler of [onUnsubscribe] on a registry whose first entry
    with the key is [sub]. *)
Lemma onUnsubscribe_final_first socket subId pre sub post srv :
  subscribes srv = pre ++ sub :: post →
  Forall (λ sub, ¬ has_key socket subId sub) pre →
  has_key socket subId sub →
  onUnsubscribe_final socket subId srv
  = (Normal (VBool true),
     set_out (λ o, o ++ [EvEmit "unsubscribe" (PSubscription sub)])
       (set_subscribes (λ _, pre ++ post) srv)).
Proof.
  intros Hsubs Hpre Hkey. unfold onUnsubscribe_final, bind at 1, this.
  rewrite Hsubs, (unsubscribeLoop_first _ _ 0 pre sub post) by done.
  unfold bind, update, emit. simpl. unfold set_subscribes.
  by rewrite Hsubs, delete_middle.
Qed.

(** X10: UNSUBSCRIBE removes from the registry the first entry that has the
    given id and the session of the caller, and nothing else: entries before
    and after it, entries of other sessions with the same id and later
    entries with the same id and session all stay, in order; the handler
    emits [unsubscribe] with the removed entry and returns [true].  When no
    entry has that id and session it returns [false] and changes nothing. *)
Theorem X10_unsubscribe_removes_first_match (socket : Socket) (subId : string)
    (srv : StompServer) :
  (Forall (λ sub, ¬ has_key socket subId sub) (subscribes srv) →
   onUnsubscribe_final socket subId srv = (Normal (VBool false), srv))
  ∧ (∀ pre sub post,
       subscribes srv = pre ++ sub :: post →
       Forall (λ sub, ¬ has_key socket subId sub) pre →
       has_key socket subId sub →
       onUnsubscribe_final socket subId srv
       = (Normal (VBool true),
          set_out (λ o, o ++ [EvEmit "unsubscribe" (PSubscription sub)])
            (set_subscribes (λ _, pre ++ post) srv))).
Proof.
  split.
  - intros Hnone. unfold onUnsubscribe_final, bind, this.
    by rewrite unsubscribeLoop_none.
  - intros pre sub post. apply onUnsubscribe_final_first.
Qed.

(** On the registry B:[/bar], A:[/foo], A:[/bar], all with id [1]: the
    UNSUBSCRIBE of A with id [1] removes A's [/foo], the first of A's two;
    an UNSUBSCRIBE of A with id [2] finds nothing. *)
Lemma X10_unsubscribe_witness :
  (sub_sessionId <$> subscribes (onUnsubscribe_final sockA "1" srv_BAA_subscribed).2,
   sub_topic <$> subscribes (onUnsubscribe_final sockA "1" srv_BAA_subscribed).2)
  = (["B"; "A"], ["/bar"; "/bar"])
  ∧ onUnsubscribe_final sockA "2" srv_BAA_subscribed = (Normal (VBool false), srv_BAA_subscribed).
Proof.
  destruct (X10_unsubscribe_removes_first_match sockA "1" srv_BAA_subscribed) as [_ Hfirst].
  destruct (X10_unsubscribe_removes_first_match sockA "2" srv_BAA_subscribed) as [Hnone _].
  split.
  - rewrite (Hfirst [@new_subscription specUtils sockB subscribe_bar]
               (@new_subscription specUtils sockA subscribe_foo)
               [@new_subscription specUtils sockA subscribe_bar]).
    + reflexivity.
    + reflexivity.
    + repeat constructor. intros [_ Hs]. discriminate Hs.
    + by split.
  - apply Hnone. repeat constructor; intros [Hid _]; discriminate Hid.
Defined.

(** X11: SUBSCRIBE followed by UNSUBSCRIBE with the same id.  When the
    registry held no entry with that id and session, the registry is again
    what it was, for a network session and for the host alike.  When it
    already held one, it is that older entry that is removed, and the new
    one stays, at the end of the registry. *)
Theorem X11_subscribe_unsubscribe_round_trip `{StompUtils} (socket : Socket)
    (args : SubscribeArgs) (srv : StompServer) :
  (Forall (λ sub, ¬ has_key socket (sargs_id args) sub) (subscribes srv) →
   subscribes (onUnsubscribe_final socket (sargs_id args)
                 (onSubscribe_final socket args srv).2).2 = subscribes srv)
  ∧ (∀ topic hid random,
       Forall (λ sub, ¬ has_key selfSocket (host_id hid random) sub) (subscribes srv) →
       (subscribe topic hid random srv).1 = Normal (host_id hid random)
       ∧ subscribes (onUnsubscribe_final selfSocket (host_id hid random)
                       (subscribe topic hid random srv).2).2 = subscribes srv)
  ∧ (∀ pre old post,
       subscribes srv = pre ++ old :: post →
       Forall (λ sub, ¬ has_key socket (sargs_id args) sub) pre →
       has_key socket (sargs_id args) old →
       subscribes (onUnsubscribe_final socket (sargs_id args)
                     (onSubscribe_final socket args srv).2).2
       = pre ++ post ++ [new_subscription socket args]).
Proof.
  split; [|split].
  - intros Hfresh.
    rewrite (onUnsubscribe_final_first socket (sargs_id args) (subscribes srv)
               (new_subscription socket args) []); [|done..].
    simpl. by rewrite app_nil_r.
  - intros topic hid random Hfresh. split; [done|].
    rewrite (onUnsubscribe_final_first selfSocket (host_id hid random) (subscribes srv)
               {| sub_id := host_id hid random; sub_sessionId := "self_1234";
                  sub_topic := topic; sub_tokens := tokenizeDestination topic;
                  sub_socket := None |} []); [|done..].
    simpl. by rewrite app_nil_r.
  - intros pre old post Hsubs Hpre Hold.
    rewrite (onUnsubscribe_final_first socket (sargs_id args) pre old
               (post ++ [new_subscription socket args])); [done| |done..].
    simpl. by rewrite Hsubs, <- app_assoc.
Qed.

(** A new server: A subscribes with id [1] and unsubscribes, the host
    subscribes (draw 42) and unsubscribes, and the registry is empty both
    times; on the server where A holds id [1] for [/foo], A subscribes to
    [/bar] with id [1] and unsubscribes: the entry that remains is [/bar]. *)
Lemma X11_round_trip_witness :
  subscribes (onUnsubscribe_final sockA "1"
                (@onSubscribe_final specUtils sockA subscribe_foo newStompServer).2).2 = []
  ∧ subscribes (onUnsubscribe_final selfSocket "self_42"
                  (@subscribe specUtils "/t" None "42" newStompServer).2).2 = []
  ∧ sub_topic <$>
      subscribes (onUnsubscribe_final sockA "1"
                    (@onSubscribe_final specUtils sockA subscribe_bar srv_A_subscribed).2).2
    = ["/bar"].
Proof.
  destruct (@X11_subscribe_unsubscribe_round_trip specUtils sockA subscribe_foo newStompServer)
    as (Hnet & Hhost & _).
  destruct (@X11_subscribe_unsubscribe_round_trip specUtils sockA subscribe_bar
              srv_A_subscribed) as (_ & _ & Hdup).
  split; [|split].
  - apply Hnet. constructor.
  - apply (Hhost "/t" None "42"). constructor.
  - change (sub_topic <$>
              subscribes (onUnsubscribe_final sockA (sargs_id subscribe_bar)
                            (@onSubscribe_final specUtils sockA subscribe_bar
                               srv_A_subscribed).2).2 = ["/bar"]).
    rewrite (Hdup [] (@new_subscription specUtils sockA subscribe_foo) []);
      [reflexivity|reflexivity|constructor|by split].
Defined.

(** ** Middleware, further *)

Lemma addMiddleware_run command handler srv :
  addMiddleware command handler srv
  = (Normal tt,
     set_middleware
       (λ _, <[toLowerCase command :=
                 default [] (middleware srv !! toLowerCase command) ++ [handler]]>
               (middleware srv))
       srv).
Proof.
  assert (∀ (m : gmap string (list FnRef)) key handlers,
            m !! key = Some handlers →
            alter (λ handlers, handlers ++ [handler]) key m
            = <[key := handlers ++ [handler]]> m) as Halter.
  { intros m key handlers Hlook. apply map_eq. intros k.
    destruct (decide (k = key)) as [->|Hne].
    - by rewrite lookup_alter_eq, lookup_insert_eq, Hlook.
    - by rewrite lookup_alter_ne, lookup_insert_ne. }
  unfold addMiddleware, bind, this.
  destruct (middleware srv !! toLowerCase command) as [handlers|] eqn:Hlook;
    unfold update, ret, set_middleware; simpl; do 2 f_equal.
  - by apply Halter.
  - rewrite (Halter _ _ []) by apply lookup_insert_eq. apply insert_insert_eq.
Qed.

(** X12: adding a handler and removing it again.  When the command already
    had a list that did not hold the handler, the server is again what it
    was, whatever the spelling of the command's case in the two calls.  When
    the command had no list, it is left with an empty list and not with
    none, so that a further [removeMiddleware] for it returns normally where
    it threw before any registration. *)
Theorem X12_add_then_remove_middleware (command command' : string) (handler : FnRef)
    (srv : StompServer) :
  toLowerCase command' = toLowerCase command →
  (∀ handlers,
     middleware srv !! toLowerCase command = Some handlers →
     handler ∉ handlers →
     removeMiddleware command' handler (addMiddleware command handler srv).2 = (Normal tt, srv))
  ∧ (middleware srv !! toLowerCase command = None →
     removeMiddleware command' handler (addMiddleware command handler srv).2
     = (Normal tt, set_middleware <[toLowerCase command := []]> srv)
     ∧ ∀ other,
         removeMiddleware command' other
           (removeMiddleware command' handler (addMiddleware command handler srv).2).2
         = (Normal tt, set_middleware <[toLowerCase command := []]> srv)).
Proof.
  intros Hcase. rewrite addMiddleware_run. simpl. split.
  - intros handlers Hlook Hnotin. rewrite Hlook. simpl.
    rewrite (removeMiddleware_first command' handler handlers []).
    + unfold set_middleware. simpl. rewrite Hcase, app_nil_r, insert_insert_eq.
      rewrite insert_id by done. by destruct srv.
    + simpl. by rewrite Hcase, lookup_insert_eq.
    + done.
  - intros Hnone. rewrite Hnone. simpl.
    assert (removeMiddleware command' handler
              (set_middleware (λ _, <[toLowerCase command := [handler]]> (middleware srv)) srv)
            = (Normal tt, set_middleware <[toLowerCase command := []]> srv)) as Hremove.
    { rewrite (removeMiddleware_first command' handler [] []).
      - unfold set_middleware. simpl. by rewrite Hcase, insert_insert_eq.
      - simpl. by rewrite Hcase, lookup_insert_eq.
      - apply not_elem_of_nil. }
    split; [done|]. intros other. rewrite Hremove. simpl.
    unfold removeMiddleware, bind, this. simpl. rewrite Hcase, lookup_insert_eq.
    by unfold indexOf.
Qed.

(** On the server with 1, 2 and 3 registered for [subscribe], 7 is added
    under [Subscribe] and removed under [SUBSCRIBE]; on a new server, 7 is
    added for [send] and removed, which leaves [send] with an empty list. *)
Lemma X12_add_then_remove_witness :
  removeMiddleware "SUBSCRIBE" 7 (addMiddleware "Subscribe" 7 srv_three_interceptors).2
  = (Normal tt, srv_three_interceptors)
  ∧ middleware (removeMiddleware "send" 7 (addMiddleware "send" 7 newStompServer).2).2
      !! "send" = Some [].
Proof.
  split.
  - apply (proj1 (X12_add_then_remove_middleware "Subscribe" "SUBSCRIBE" 7
                    srv_three_interceptors eq_refl) [1; 2; 3]); [reflexivity|].
    by apply (bool_decide_unpack _).
  - rewrite (proj1 (proj2 (X12_add_then_remove_middleware "send" "send" 7 newStompServer
                             eq_refl) eq_refl)).
    reflexivity.
Defined.

(** X13: [removeMiddleware] takes out one occurrence of the handler, the
    first: the handlers before and after it keep their order, and a handler
    that was registered more than once for the command is still registered,
    once less. *)
Theorem X13_remove_takes_first_occurrence (command : string) (handler : FnRef)
    (pre post : list FnRef) (srv : StompServer) :
  middleware srv !! toLowerCase command = Some (pre ++ handler :: post) →
  handler ∉ pre →
  (removeMiddleware command handler srv).1 = Normal tt
  ∧ middleware (removeMiddleware command handler srv).2 !! toLowerCase command
    = Some (pre ++ post)
  ∧ S (occurrences handler (pre ++ post)) = occurrences handler (pre ++ handler :: post)
  ∧ ∀ key, key ≠ toLowerCase command →
      middleware (removeMiddleware command handler srv).2 !! key = middleware srv !! key.
Proof.
  intros Hlook Hnotin. rewrite (removeMiddleware_first command handler pre post) by done.
  simpl. split; [done|]. split; [apply lookup_insert_eq|]. split.
  - unfold occurrences. rewrite !filter_app, !length_app, filter_cons_True by done.
    simpl. lia.
  - intros key Hkey. by rewrite lookup_insert_ne.
Qed.

(** The function 2 is added a second time for [subscribe] on the server
    with 1, 2 and 3: one removal leaves 1, 3, 2. *)
Lemma X13_remove_first_occurrence_witness :
  middleware
    (removeMiddleware "subscribe" 2 (addMiddleware "subscribe" 2 srv_three_interceptors).2).2
    !! "subscribe"
  = Some [1; 3; 2].
Proof.
  destruct (X13_remove_takes_first_occurrence "subscribe" 2 [1] [3; 2]
              (addMiddleware "subscribe" 2 srv_three_interceptors).2) as (_ & Hlist & _).
  - reflexivity.
  - by apply (bool_decide_unpack _).
  - exact Hlist.
Defined.

Lemma registered_from_app srv h1 h2 :
  registered_from srv (h1 ++ h2) = registered_from (registered_from srv h1) h2.
Proof. unfold registered_from. apply foldl_app. Qed.

Lemma registered_from_adds history :
  adds_only_history history →
  ∀ srv key,
    middleware (registered_from srv history) !! key
    = if decide (added_for key history = []) then middleware srv !! key
      else Some (default [] (middleware srv !! key) ++ added_for key history).
Proof.
  unfold adds_only_history.
  induction history as [|r history IH]; intros Hadds srv key; [done|].
  apply Forall_cons in Hadds as [Hr Hadds]. destruct r as [command handler|]; [|done].
  change (registered_from srv (RegAdd command handler :: history))
    with (registered_from (addMiddleware command handler srv).2 history).
  rewrite (IH Hadds). rewrite addMiddleware_run. simpl.
  destruct (decide (toLowerCase command = key)) as [<-|Hne]; simpl.
  - rewrite lookup_insert_eq. simpl.
    destruct (decide (added_for (toLowerCase command) history = [])) as [->|_].
    + done.
    + by rewrite <- app_assoc.
  - by rewrite lookup_insert_ne.
Qed.

(** X14: the handlers of a command are those registered under any spelling
    of its case, in the order of registration; registrations for other
    commands do not touch them.  After a history of [addMiddleware] calls the
    list of a command is what it was followed by the handlers added for it;
    after a [setMiddleware] for the command followed by [addMiddleware] calls
    it is the handler that was set followed by the handlers added for it
    since. *)
Theorem X14_registration_order (srv : StompServer) (key : string) :
  (∀ history,
     adds_only_history history →
     middleware (registered_from srv history) !! key
     = if decide (added_for key history = []) then middleware srv !! key
       else Some (default [] (middleware srv !! key) ++ added_for key history))
  ∧ (∀ before command handler after,
       toLowerCase command = key →
       adds_only_history after →
       middleware (registered_from srv (before ++ RegSet command handler :: after)) !! key
       = Some (handler :: added_for key after)).
Proof.
  split.
  - intros history Hadds. by apply registered_from_adds.
  - intros before command handler after Hkey Hadds.
    rewrite registered_from_app.
    change (registered_from ?s (RegSet command handler :: after))
      with (registered_from (setMiddleware command handler s).2 after).
    rewrite registered_from_adds by done. simpl. rewrite Hkey, lookup_insert_eq. simpl.
    by destruct (decide (added_for key after = [])) as [->|_].
Qed.

(** Three spellings of [subscribe] add 1, 2 and 3 with a registration for
    [send] in between; then 9 is set for [subscribe] and 4 added. *)
Lemma X14_registration_order_witness :
  middleware
    (registered_from newStompServer
       [RegAdd "subscribe" 1; RegAdd "send" 8; RegAdd "SUBSCRIBE" 2; RegAdd "Subscribe" 3])
    !! "subscribe" = Some [1; 2; 3]
  ∧ middleware
      (registered_from newStompServer
         [RegAdd "subscribe" 1; RegSet "Subscribe" 9; RegAdd "send" 8; RegAdd "SUBSCRIBE" 4])
      !! "subscribe" = Some [9; 4].
Proof.
  destruct (X14_registration_order newStompServer "subscribe") as [Hadds Hset].
  split.
  - rewrite Hadds; [reflexivity|]. by repeat constructor.
  - apply (Hset [RegAdd "subscribe" 1] "Subscribe" 9 [RegAdd "send" 8; RegAdd "SUBSCRIBE" 4]);
      [reflexivity|]. by repeat constructor.
Defined.



(** ** Heartbeat timers *)

Lemma heartbeatOn_then_off socket interval serverSide now srv :
  heartbeatOff socket (heartbeatOn socket interval serverSide now srv).2
  = (Normal tt,
     set_heartbeatClock (delete (sock_ref socket))
       (if serverSide then srv
        else set_heartbeatTime <[sock_ref socket := (now + interval)%Z]> srv)).
Proof.
  rewrite heartbeatOn_run. simpl.
  erewrite heartbeatOff_armed by (simpl; apply lookup_insert_eq).
  pose proof (fresh_timer_unused srv) as Hfresh.
  destruct srv, serverSide; unfold set_heartbeatClock, set_intervals, set_heartbeatTime;
    simpl in *; do 2 f_equal.
  all: first [ by rewrite delete_insert_id | by rewrite delete_insert_eq ].
Qed.

(** X16: [heartbeatOn] followed by [heartbeatOff] on a socket that had no
    timer leaves the timers as they were and the socket without a timer; of
    a client-side heartbeat the deadline written to [heartbeatTime] stays
    behind, which [heartbeatOff] does not delete. *)
Theorem X16_heartbeat_on_then_off (socket : Socket) (interval : Z) (serverSide : bool)
    (now : Z) (srv : StompServer) :
  heartbeatClock srv !! sock_ref socket = None →
  heartbeatOff socket (heartbeatOn socket interval serverSide now srv).2
  = (Normal tt,
     if serverSide then srv
     else set_heartbeatTime <[sock_ref socket := (now + interval)%Z]> srv).
Proof.
  intros Hclock. rewrite heartbeatOn_then_off. f_equal.
  destruct srv, serverSide; unfold set_heartbeatClock, set_heartbeatTime; simpl in *;
    by rewrite delete_id.
Qed.

(** On a new server, for the socket of A: a server-side heartbeat leaves the
    server as new, a client-side one leaves the deadline 11000. *)
Lemma X16_heartbeat_on_then_off_witness :
  heartbeatOff sockA (heartbeatOn sockA 10000 true 1000 newStompServer).2
  = (Normal tt, newStompServer)
  ∧ heartbeatTime (heartbeatOff sockA (heartbeatOn sockA 10000 false 1000 newStompServer).2).2
      !! sock_ref sockA
    = Some 11000%Z.
Proof.
  split.
  - apply (X16_heartbeat_on_then_off sockA 10000 true 1000 newStompServer). reflexivity.
  - rewrite (X16_heartbeat_on_then_off sockA 10000 false 1000 newStompServer) by reflexivity.
    reflexivity.
Defined.

(** X17: [heartbeatOn] on a socket that has a timer overwrites
    [socket.heartbeatClock] without clearing the earlier timer.
    [heartbeatOff] then clears the new timer alone: the socket has no timer
    of its own left, the timers are those from before the second
    [heartbeatOn], the earlier one among them, and neither a further
    [heartbeatOff] nor the teardown of the socket clears it. *)
Theorem X17_second_heartbeatOn_leaves_first_timer (socket : Socket) (interval : Z)
    (serverSide : bool) (now : Z) (srv : StompServer) (t0 : TimerId) (timer0 : Timer) :
  heartbeatClock srv !! sock_ref socket = Some t0 →
  intervals srv !! t0 = Some timer0 →
  heartbeatClock (heartbeatOn socket interval serverSide now srv).2 !! sock_ref socket
  ≠ Some t0
  ∧ heartbeatClock (heartbeatOff socket (heartbeatOn socket interval serverSide now srv).2).2
      !! sock_ref socket = None
  ∧ intervals (heartbeatOff socket (heartbeatOn socket interval serverSide now srv).2).2
      !! t0 = Some timer0
  ∧ intervals
      (afterConnectionClose socket
         (heartbeatOff socket (heartbeatOn socket interval serverSide now srv).2).2).2
      !! t0 = Some timer0.
Proof.
  intros Hclock Htimer. split.
  - rewrite heartbeatOn_run. simpl. rewrite lookup_insert_eq. intros [= Ht0].
    pose proof (fresh_timer_unused srv) as Hfresh. rewrite Ht0 in Hfresh. congruence.
  - rewrite heartbeatOn_then_off. simpl.
    assert (∀ srv', heartbeatClock (set_heartbeatClock (delete (sock_ref socket)) srv')
                      !! sock_ref socket = None) as Hgone
      by (intros srv'; apply lookup_delete_eq).
    split; [apply Hgone|]. split.
    + by destruct serverSide.
    + rewrite afterConnectionClose_run, heartbeatOff_unarmed by apply Hgone.
      by destruct serverSide.
Qed.

(** The heartbeat of A's socket is switched on twice on a new server, then
    off: the first timer, 0, is still there. *)
Lemma X17_second_heartbeatOn_witness :
  intervals
    (heartbeatOff sockA
       (heartbeatOn sockA 5000 false 2000
          (heartbeatOn sockA 10000 false 1000 newStompServer).2).2).2
    !! 0
  = Some {| timer_socket := sockA; timer_interval := 10000%Z; timer_serverSide := false |}.
Proof.
  apply (X17_second_heartbeatOn_leaves_first_timer sockA 5000 false 2000
           (heartbeatOn sockA 10000 false 1000 newStompServer).2 0
           {| timer_socket := sockA; timer_interval := 10000%Z; timer_serverSide := false |});
    reflexivity.
Defined.

(** ** Teardown, further *)

Lemma afterConnectionClose_cases socket srv :
  afterConnectionClose socket srv
  = (Normal tt,
     match heartbeatClock srv !! sock_ref socket with
     | Some t =>
         set_heartbeatClock (delete (sock_ref socket))
           (set_intervals (delete t) (set_subscribes (others socket) srv))
     | None => set_subscribes (others socket) srv
     end).
Proof.
  rewrite afterConnectionClose_run.
  destruct (heartbeatClock srv !! sock_ref socket) as [t|] eqn:Hclock.
  - by apply heartbeatOff_armed.
  - by apply heartbeatOff_unarmed.
Qed.

Lemma matching_others `{StompUtils} socket closed args subs :
  matching socket args (others closed subs) = others closed (matching socket args subs).
Proof.
  unfold matching, others. induction subs as [|sub subs IH]; [done|].
  rewrite !filter_cons.
  destruct (decide (sub_sessionId sub ≠ sock_sessionId closed)) as [Hkeep|Hdrop],
    (decide (sub_sessionId sub ≠ sock_sessionId socket ∧ _checkSubMatchDest sub args = true))
      as [Hmatch|Hno]; rewrite ?filter_cons; repeat case_decide; try done; by rewrite IH.
Qed.

(** X18: a SEND after the teardown of a session.  The messages delivered are
    those that the same SEND would have delivered before the teardown, in
    the same order, without the ones for the subscriptions of the closed
    session; nothing else leaves the server. *)
Theorem X18_send_after_teardown `{StompUtils} (closed socket : Socket) (args : SendArgs)
    (srv : StompServer) :
  ∃ args',
    _sendToSubscriptions socket args (afterConnectionClose closed srv).2
    = (Normal args',
       set_out (λ o, o ++ (delivery args <$> others closed (matching socket args (subscribes srv))))
         (afterConnectionClose closed srv).2)
    ∧ same_send args args'
    ∧ out (afterConnectionClose closed srv).2 = out srv.
Proof.
  destruct (sendLoop_exact socket args (subscribes (afterConnectionClose closed srv).2)
              args (afterConnectionClose closed srv).2 (same_send_refl args))
    as (args' & Hrun & Hsame).
  exists args'. split; [|split; [done|]].
  - assert (subscribes (afterConnectionClose closed srv).2 = others closed (subscribes srv))
      as Hsubs.
    { rewrite afterConnectionClose_cases. simpl.
      by destruct (heartbeatClock srv !! sock_ref closed). }
    unfold _sendToSubscriptions, bind, this. rewrite Hrun.
    by rewrite Hsubs, matching_others.
  - rewrite afterConnectionClose_cases. simpl.
    by destruct (heartbeatClock srv !! sock_ref closed).
Qed.

(** X19: what the teardown of a socket leaves alone.  It sends and emits
    nothing, keeps the middleware and every [heartbeatTime], the last of the
    closed socket's too; it keeps the subscriptions of the other sessions in
    their order, the [heartbeatClock] of every other socket, and every timer
    but the one the closed socket's [heartbeatClock] names. *)
Theorem X19_teardown_leaves_the_rest (socket : Socket) (srv : StompServer) :
  out (afterConnectionClose socket srv).2 = out srv
  ∧ calls (afterConnectionClose socket srv).2 = calls srv
  ∧ middleware (afterConnectionClose socket srv).2 = middleware srv
  ∧ heartbeatTime (afterConnectionClose socket srv).2 = heartbeatTime srv
  ∧ filter (λ sub, sub_sessionId sub ≠ sock_sessionId socket)
      (subscribes (afterConnectionClose socket srv).2)
    = filter (λ sub, sub_sessionId sub ≠ sock_sessionId socket) (subscribes srv)
  ∧ (∀ other, sock_ref other ≠ sock_ref socket →
       heartbeatClock (afterConnectionClose socket srv).2 !! sock_ref other
       = heartbeatClock srv !! sock_ref other)
  ∧ (∀ t, heartbeatClock srv !! sock_ref socket ≠ Some t →
       intervals (afterConnectionClose socket srv).2 !! t = intervals srv !! t).
Proof.
  rewrite afterConnectionClose_cases. simpl.
  destruct (heartbeatClock srv !! sock_ref socket) as [t0|] eqn:Hclock; simpl.
  - repeat (split; [done|]). split; [apply others_idemp|]. split.
    + intros other Hother. by rewrite lookup_delete_ne.
    + intros t Ht. rewrite lookup_delete_ne; [done|]. congruence.
  - repeat (split; [done|]). split; [apply others_idemp|]. by split.
Qed.

(** ** Timer callbacks *)

Lemma healthCheck_run socket interval margin now time srv :
  heartbeatTime srv !! sock_ref socket = Some time →
  healthCheck socket interval margin now srv
  = if decide (now - time > interval + margin)%Z
    then (Normal (Some SocketClose),
          set_out (λ o, o ++ [EvDebug ["HEALTH CHECK failed! Closing";
                                        pretty (now - time)%Z; pretty interval]]) srv)
    else (Normal None,
          set_heartbeatTime <[sock_ref socket := (2 * time - now)%Z]>
            (set_out (λ o, o ++ [EvDebug ["HEALTH CHECK ok!";
                                           pretty (now - time)%Z; pretty interval]]) srv)).
Proof.
  intros Htime. unfold healthCheck, bind at 1, this. rewrite Htime.
  destruct (decide (now - time > interval + margin)%Z) as [Hlate|Hok].
  - assert ((now - time >? interval + margin)%Z = true) as -> by (apply Z.gtb_lt; lia).
    done.
  - assert ((now - time >? interval + margin)%Z = false) as ->.
    { apply not_true_is_false. rewrite Z.gtb_lt. lia. }
    unfold bind, debug, update, ret. simpl. do 3 f_equal. lia.
Qed.

(** X20: two health checks of a socket with no message from it in between.
    A check that passes moves [heartbeatTime] back by the time elapsed since
    it ([heartbeatTime -= diff]), so the next check counts that time twice:
    it closes the socket exactly when the time between the two checks plus
    twice the silence seen by the first exceeds the interval plus the error
    margin. *)
Theorem X20_passed_check_counts_twice (socket : Socket) (interval margin now1 now2 time : Z)
    (srv : StompServer) :
  heartbeatTime srv !! sock_ref socket = Some time →
  (now1 - time ≤ interval + margin)%Z →
  (healthCheck socket interval margin now1 srv).1 = Normal None
  ∧ heartbeatTime (healthCheck socket interval margin now1 srv).2 !! sock_ref socket
    = Some (time - (now1 - time))%Z
  ∧ (healthCheck socket interval margin now2
       (healthCheck socket interval margin now1 srv).2).1
    = Normal (if decide ((now2 - now1) + 2 * (now1 - time) > interval + margin)%Z
              then Some SocketClose else None).
Proof.
  intros Htime Hok. rewrite (healthCheck_run _ _ _ _ time) by done.
  rewrite decide_False by lia. simpl. split; [done|]. split.
  - rewrite lookup_insert_eq. f_equal. lia.
  - rewrite (healthCheck_run _ _ _ _ (2 * time - now1)%Z) by (simpl; apply lookup_insert_eq).
    destruct (decide (now2 - (2 * time - now1) > interval + margin)%Z);
      [rewrite decide_True by lia|rewrite decide_False by lia]; done.
Qed.

(** After [heartbeatOn] at 1000 with the interval 10000 the deadline of A's
    socket is 11000.  The check at 20000 sees 9000 and passes; the check at
    30000 sees 28000, not 19000, and closes. *)
Lemma X20_passed_check_witness :
  (healthCheck sockA 10000 1000 20000
     (heartbeatOn sockA 10000 false 1000 newStompServer).2).1 = Normal None
  ∧ heartbeatTime
      (healthCheck sockA 10000 1000 20000
         (heartbeatOn sockA 10000 false 1000 newStompServer).2).2 !! sock_ref sockA
    = Some 2000%Z
  ∧ (healthCheck sockA 10000 1000 30000
       (healthCheck sockA 10000 1000 20000
          (heartbeatOn sockA 10000 false 1000 newStompServer).2).2).1
    = Normal (Some SocketClose).
Proof.
  apply (X20_passed_check_counts_twice sockA 10000 1000 20000 30000 11000
           (heartbeatOn sockA 10000 false 1000 newStompServer).2); [reflexivity|lia].
Defined.

Lemma tick_client socket interval margin readyState now t srv :
  intervals srv !! t
  = Some {| timer_socket := socket; timer_interval := interval; timer_serverSide := false |} →
  tick t margin readyState now srv = healthCheck socket interval margin now srv.
Proof. intros Htimer. unfold tick, bind at 1, this. by rewrite Htimer. Qed.

(** X21: a client that agreed to send heart-beats and stays silent.  With
    the timer firing on time, every [interval] after [heartbeatOn], the
    first two health checks pass and the third one, three intervals after
    [heartbeatOn], closes the socket exactly when the error margin is below
    two intervals. *)
Theorem X21_silent_client_closed_at_third_check (socket : Socket)
    (interval margin now readyState : Z) (srv : StompServer) :
  (0 ≤ interval)%Z →
  (0 ≤ margin)%Z →
  (ticks (fresh (dom (intervals srv))) margin readyState
     [(now + interval)%Z; (now + 2 * interval)%Z; (now + 3 * interval)%Z]
     (heartbeatOn socket interval false now srv).2).1
  = Normal [None; None;
            if decide (margin < 2 * interval)%Z then Some SocketClose else None].
Proof.
  intros Hinterval Hmargin. rewrite heartbeatOn_run.
  set (t := fresh (dom (intervals srv))).
  set (timer := {| timer_socket := socket; timer_interval := interval;
                   timer_serverSide := false |}).
  assert (∀ k srv0 time,
            intervals srv0 !! t = Some timer →
            heartbeatTime srv0 !! sock_ref socket = Some time →
            ∃ srv1,
              tick t margin readyState k srv0
              = (Normal (if decide (k - time > interval + margin)%Z
                         then Some SocketClose else None), srv1)
              ∧ intervals srv1 !! t = Some timer
              ∧ heartbeatTime srv1 !! sock_ref socket
                = Some (if decide (k - time > interval + margin)%Z
                        then time else 2 * time - k)%Z) as Hstep.
  { intros k srv0 time Htimer Htime.
    rewrite (tick_client socket interval) by done.
    rewrite (healthCheck_run _ _ _ _ time) by done.
    destruct (decide (k - time > interval + margin)%Z); eexists; split; try done.
    simpl. split; [done|]. apply lookup_insert_eq. }
  destruct (Hstep (now + interval)%Z
              (set_heartbeatClock <[sock_ref socket := t]>
                 (set_intervals <[t := timer]>
                    (set_heartbeatTime <[sock_ref socket := (now + interval)%Z]> srv)))
              (now + interval)%Z)
    as (srv1 & Hrun1 & Htimer1 & Htime1);
    [simpl; apply lookup_insert_eq..|].
  rewrite decide_False in Hrun1 by lia. rewrite decide_False in Htime1 by lia.
  destruct (Hstep (now + 2 * interval)%Z srv1 _ Htimer1 Htime1)
    as (srv2 & Hrun2 & Htimer2 & Htime2).
  rewrite decide_False in Hrun2 by lia. rewrite decide_False in Htime2 by lia.
  destruct (Hstep (now + 3 * interval)%Z srv2 _ Htimer2 Htime2)
    as (srv3 & Hrun3 & _ & _).
  unfold ticks, bind. cbn [snd]. rewrite Hrun1, Hrun2, Hrun3. simpl. do 3 f_equal.
  destruct (decide (margin < 2 * interval)%Z);
    [rewrite decide_True by lia|rewrite decide_False by lia]; done.
Qed.

(** With the interval 10000 and the margin 1000, A's socket is closed by the
    check at 31000, 30 s after [heartbeatOn] at 1000. *)
Lemma X21_silent_client_witness :
  (ticks 0 1000 1 [11000; 21000; 31000]%Z
     (heartbeatOn sockA 10000 false 1000 newStompServer).2).1
  = Normal [None; None; Some SocketClose].
Proof.
  apply (X21_silent_client_closed_at_third_check sockA 10000 1000 1000 1 newStompServer); lia.
Defined.

(** X22: a heart-beat and the health check after it.  A single LF received
    at [received] on a socket with a timer resets [heartbeatTime], so the
    check at [now] closes the socket exactly when more than the interval
    plus the error margin went by since the heart-beat, whatever
    [heartbeatTime] was before. *)
Theorem X22_heartbeat_resets_health_check `{StompUtils} `{JSON} `{FrameHandler}
    (socket : Socket) (interval margin received now : Z) (srv : StompServer) (t : TimerId) :
  heartbeatClock srv !! sock_ref socket = Some t →
  (healthCheck socket interval margin now
     (parseRequest socket (DString BYTES_LF) received srv).2).1
  = Normal (if decide (now - received > interval + margin)%Z then Some SocketClose else None).
Proof.
  intros Hclock. rewrite (parseRequest_armed _ _ _ _ t) by done. simpl.
  rewrite (healthCheck_run _ _ _ _ received) by (simpl; apply lookup_insert_eq).
  by destruct (decide (now - received > interval + margin)%Z).
Qed.

(** A is silent until the second check has passed, then sends a heart-beat
    at 25000: the check at 31000, which closes the silent socket, passes. *)
Lemma X22_heartbeat_resets_witness :
  (healthCheck sockA 10000 1000 31000
     (@parseRequest specUtils plainJSON specFrameHandler sockA (DString BYTES_LF) 25000
        (ticks 0 1000 1 [11000; 21000]%Z
           (heartbeatOn sockA 10000 false 1000 newStompServer).2).2).2).1
  = Normal None.
Proof.
  apply (@X22_heartbeat_resets_health_check specUtils plainJSON specFrameHandler
           sockA 10000 1000 25000 31000 _ 0).
  reflexivity.
Defined.

(** X23: a server-side heartbeat never closes the socket.  However often
    the timer set by [heartbeatOn] with [serverSide] fires, and whatever the
    client does not send, each run sends a single LF when the socket is open
    ([readyState] 1) and does nothing otherwise. *)
Theorem X23_server_side_timer_only_pings (socket : Socket) (interval margin readyState now : Z)
    (times : list Z) (srv : StompServer) :
  (ticks (fresh (dom (intervals srv))) margin readyState times
     (heartbeatOn socket interval true now srv).2).1
  = Normal (replicate (length times)
              (if (readyState =? 1)%Z then Some (SocketSend BYTES_LF) else None)).
Proof.
  rewrite heartbeatOn_run. simpl.
  set (t := fresh (dom (intervals srv))).
  set (timer := {| timer_socket := socket; timer_interval := interval;
                   timer_serverSide := true |}).
  assert (∀ srv0, intervals srv0 !! t = Some timer →
            (ticks t margin readyState times srv0).1
            = Normal (replicate (length times)
                        (if (readyState =? 1)%Z then Some (SocketSend BYTES_LF) else None)))
    as Hticks.
  { induction times as [|k times IH]; intros srv0 Htimer; [done|].
    simpl. unfold bind at 1. unfold tick, bind at 1, this. rewrite Htimer. simpl.
    unfold serverPing. destruct (readyState =? 1)%Z eqn:Hready.
    - unfold bind at 1 2, debug, update, ret. simpl.
      specialize (IH (set_out (λ o, o ++ [EvDebug ["PING"]]) srv0) Htimer).
      destruct (ticks t margin readyState times _) as [[ops| | ] srv1]; simpl in *;
        congruence.
    - unfold ret at 1. unfold bind. specialize (IH srv0 Htimer).
      destruct (ticks t margin readyState times _) as [[ops| | ] srv1]; simpl in *;
        congruence. }
  apply Hticks. simpl. apply lookup_insert_eq.
Qed.

(** ** Frames and requests, further *)

Lemma parseRequest_normal_malformed `{StompUtils} `{JSON} `{FrameHandler}
    socket data command cmdFunc e srv :
  frame_command (parseFrame data) = Some command →
  frameHandler command = Some cmdFunc →
  is_json (parseFrame data) = true →
  frame_body (parseFrame data) ≠ BUndefined →
  JSON_parse (frame_body (parseFrame data)) = inl e →
  parseRequest_normal socket data srv
  = (Throw e, set_calls (λ l, l ++ [CallParseFrame data]) srv).
Proof.
  intros Hcommand Hfunc Hjson Hbody Hparse.
  unfold parseRequest_normal, bind at 1, called, update. rewrite Hcommand, Hfunc.
  unfold bind, frameParser. rewrite Hjson. revert Hbody Hparse.
  destruct (frame_body (parseFrame data)); intros Hbody Hparse; [done|..];
    by rewrite Hparse.
Qed.

(** X24: a frame of a supported command whose content type is
    [application/json] and whose body [JSON.parse] rejects.  [parseRequest]
    throws the parser's exception after the payload was parsed and before
    the command function is called: the command has no effect, no frame is
    sent back and nothing is emitted. *)
Theorem X24_malformed_json_frame_throws `{StompUtils} `{JSON} `{FrameHandler}
    (socket : Socket) (data : Data) (now : Z) (srv : StompServer)
    (command : string) (cmdFunc : Socket → Frame → M Value) (e : Exn) :
  frame_command (parseFrame data) = Some command →
  frameHandler command = Some cmdFunc →
  frame_headers (parseFrame data) !! "content-type" = Some (HStr "application/json") →
  frame_body (parseFrame data) ≠ BUndefined →
  JSON_parse (frame_body (parseFrame data)) = inl e →
  heartbeatClock srv !! sock_ref socket = None ∨ data ≠ DString BYTES_LF →
  (parseRequest socket data now srv).1 = Throw e
  ∧ calls (parseRequest socket data now srv).2 = calls srv ++ [CallParseFrame data]
  ∧ out (parseRequest socket data now srv).2 = out srv
  ∧ subscribes (parseRequest socket data now srv).2 = subscribes srv.
Proof.
  intros Hcommand Hfunc Htype Hbody Hparse Hdata.
  assert (is_json (parseFrame data) = true) as Hjson by by apply bool_decide_eq_true.
  destruct (heartbeatClock srv !! sock_ref socket) as [t|] eqn:Hclock.
  - destruct Hdata as [|Hdata]; [done|].
    rewrite (parseRequest_armed _ _ _ _ t) by done.
    rewrite strict_equal_string_false by done.
    by rewrite (parseRequest_normal_malformed _ _ command cmdFunc e).
  - rewrite parseRequest_unarmed by done.
    by rewrite (parseRequest_normal_malformed _ _ command cmdFunc e).
Qed.

(** A SEND frame with the body [{] arrives on A's socket. *)
Lemma X24_malformed_json_frame_witness :
  @parseRequest malformedFrameUtils brokenTextJSON specFrameHandler sockA (DString "SEND")
    5000 srv_A_subscribed
  = (Throw (SyntaxError "Unexpected end of JSON input"),
     set_calls (λ l, l ++ [CallParseFrame (DString "SEND")]) srv_A_subscribed).
Proof.
  destruct (@X24_malformed_json_frame_throws malformedFrameUtils brokenTextJSON
              specFrameHandler sockA (DString "SEND") 5000 srv_A_subscribed "SEND"
              (λ _ _, ret VUndefined) (SyntaxError "Unexpected end of JSON input"))
    as (Hthrow & _); [reflexivity|reflexivity|reflexivity|done|reflexivity|by left|].
  destruct (parseRequest sockA (DString "SEND") 5000 srv_A_subscribed) as [c srv'] eqn:Hrun.
  simpl in Hthrow. subst c. vm_compute in Hrun. by injection Hrun as <-.
Defined.

(** X25: [frameParser] after [frameSerializer].  For a frame whose body is
    not a [Buffer], and which [JSON.parse] reads back from what
    [JSON.stringify] wrote, parsing the serialized frame gives the frame
    again, whatever its content type, and touches nothing.  A [Buffer] under
    [application/json] is left as it is by the serializer and yet handed to
    [JSON.parse] by the parser. *)
Theorem X25_parse_after_serialize `{JSON} (frame : Frame) (srv : StompServer) :
  ((∀ bytes, frame_body frame ≠ BBuffer bytes) →
   JSON_parse (BString (JSON_stringify (frame_body frame))) = inr (frame_body frame) →
   frameParser (frameSerializer frame) srv = (Normal frame, srv))
  ∧ (∀ bytes,
       frame_body frame = BBuffer bytes →
       is_json frame = true →
       frameParser (frameSerializer frame) srv
       = match JSON_parse (BBuffer bytes) with
         | inr v => (Normal (with_body frame v), srv)
         | inl e => (Throw e, srv)
         end).
Proof.
  split.
  - intros Hbuffer Hround. unfold frameSerializer, frameParser.
    destruct frame as [command headers body]. simpl in *.
    destruct body as [|s|bytes|handle]; simpl; [done| |by destruct (Hbuffer bytes)|].
    all: unfold is_json, with_body; simpl.
    all: destruct (bool_decide (headers !! "content-type" = Some (HStr "application/json")))
           eqn:Hjson; simpl; rewrite Hjson, ?Hround; done.
  - intros bytes Hbody Hjson. unfold frameSerializer, frameParser.
    rewrite Hbody, Hjson, Hbody. by destruct (JSON_parse (BBuffer bytes)).
Qed.

(** The frame with a structured body, under a [JSON] that writes it as [{}]
    and reads [{}] back as it. *)
Lemma X25_parse_after_serialize_witness :
  @frameParser emptyObjectJSON (@frameSerializer emptyObjectJSON json_frame) newStompServer
  = (Normal json_frame, newStompServer).
Proof.
  apply (proj1 (@X25_parse_after_serialize emptyObjectJSON json_frame newStompServer));
    [done|reflexivity].
Defined.
